(** * joinmarket-v2: script builder, mempool client, bond validator and
      order-book aggregator

    A shallow embedding of

    - [jmcore/btc_script.py]        (script construction primitives),
    - [jmcore/mempool_api.py]       (the blockchain explorer client),
    - [orderbook_watcher/bond_validator.py],
    - [orderbook_watcher/aggregator.py],

    followed by the properties the specification states about them.

    Conventions.  Python integers are [Z]; [bytes] and [bytearray] values are
    lists of [Z] in the range [0, 256); [str] is [string]; a [dict] whose
    iteration order is observed is an insertion-ordered association list and a
    [dict] that is only looked up is a [gmap].  A call that can raise returns
    an [outcome]; only exceptions deriving from [Exception] are modelled, so
    task cancellation and interpreter shutdown are outside the model. *)

From Stdlib Require Import ZArith List Lia Ascii.
From stdpp Require Import base numbers option list strings pretty gmap.

Local Open Scope Z_scope.

(** ** Python runtime *)

Module Py.

(** The exception classes that the modelled code raises or lets through. *)
Inductive exn : Type :=
| ValueError (msg : string)
| StructError
| IndexError
| TypeError
| ValidationError
| HTTPError
| MempoolAPIError
| ConnectionFailure (msg : string).

(** The result of running a call to completion. *)
Inductive outcome (A : Type) : Type :=
| Ret (a : A)
| Raise (e : exn).
Arguments Ret {A} a.
Arguments Raise {A} e.

Definition bind {A B : Type} (m : outcome A) (k : A -> outcome B) : outcome B :=
  match m with
  | Ret a => k a
  | Raise e => Raise e
  end.

(** [isinstance(e, MempoolAPIError)] *)
Definition is_MempoolAPIError (e : exn) : bool :=
  match e with
  | MempoolAPIError => true
  | _ => false
  end.

(** [len(x)] as a Python integer. *)
Definition len {A : Type} (l : list A) : Z := Z.of_nat (length l).

(** [l[i]] on a list: negative indices count from the end, anything outside
    [-len(l), len(l)) raises [IndexError]. *)
Definition getitem {A : Type} (l : list A) (i : Z) : outcome A :=
  let j := if i <? 0 then len l + i else i in
  if j <? 0 then Raise IndexError
  else match l !! Z.to_nat j with
       | Some x => Ret x
       | None => Raise IndexError
       end.

(** [struct.pack("<H", v)] and [struct.pack("<I", v)]: [width] little-endian
    bytes of [v]; [struct.error] when [v] does not fit. *)
Fixpoint le_fixed (width : nat) (v : Z) : list Z :=
  match width with
  | O => []
  | S w => Z.land v 255 :: le_fixed w (Z.shiftr v 8)
  end.

Definition struct_pack_le (width : nat) (v : Z) : outcome (list Z) :=
  if (0 <=? v) && (v <? 2 ^ (8 * Z.of_nat width))
  then Ret (le_fixed width v)
  else Raise StructError.

(** [bytes.fromhex(s)]: pairs of hexadecimal digits, ASCII whitespace allowed
    between pairs; [ValueError] naming the position of the first character
    that is not a digit where one is required (the end of the string when a
    digit is missing). *)
Definition hex_value (c : ascii) : option Z :=
  let n := Z.of_N (Ascii.N_of_ascii c) in
  if (48 <=? n) && (n <=? 57) then Some (n - 48)
  else if (97 <=? n) && (n <=? 102) then Some (n - 87)
  else if (65 <=? n) && (n <=? 70) then Some (n - 55)
  else None.

Definition is_space (c : ascii) : bool :=
  let n := Z.of_N (Ascii.N_of_ascii c) in
  (n =? 32) || ((9 <=? n) && (n <=? 13)).

Definition fromhex_error (pos : nat) : exn :=
  ValueError ("non-hexadecimal number found in fromhex() arg at position " +:+ pretty pos).

Fixpoint fromhex_from (pos : nat) (s : string) : outcome (list Z) :=
  match s with
  | EmptyString => Ret []
  | String c rest =>
      if is_space c then fromhex_from (S pos) rest
      else match hex_value c with
           | None => Raise (fromhex_error pos)
           | Some top =>
               match rest with
               | EmptyString => Raise (fromhex_error (S pos))
               | String d rest' =>
                   match hex_value d with
                   | None => Raise (fromhex_error (S pos))
                   | Some bot =>
                       bind (fromhex_from (S (S pos)) rest')
                            (fun tl => Ret (Z.shiftl top 4 + bot :: tl))
                   end
               end
           end
  end.

Definition bytes_fromhex (s : string) : outcome (list Z) := fromhex_from 0 s.

(** Calls that await the outside world: [World] is the state of everything
    outside the process. *)
Section IO.

Context {World : Type}.

Definition io (A : Type) : Type := World -> outcome A * World.

Definition io_ret {A : Type} (a : A) : io A := fun w => (Ret a, w).

Definition io_raise {A : Type} (e : exn) : io A := fun w => (Raise e, w).

Definition io_lift {A : Type} (r : outcome A) : io A := fun w => (r, w).

Definition io_bind {A B : Type} (m : io A) (k : A -> io B) : io B :=
  fun w =>
    match m w with
    | (Ret a, w') => k a w'
    | (Raise e, w') => (Raise e, w')
    end.

(** [try: body  except <catches> as e: handler(e)] *)
Definition try_except {A : Type} (body : io A) (catches : exn -> bool)
    (handler : exn -> io A) : io A :=
  fun w =>
    match body w with
    | (Ret a, w') => (Ret a, w')
    | (Raise e, w') => if catches e then handler e w' else (Raise e, w')
    end.

End IO.

Arguments io World A : clear implicits.

End Py.

Import Py.

Notation "'await' x ← m ; k" := (io_bind m (fun x => k))
  (at level 20, x name, m at level 100, k at level 200, only parsing).

Global Instance outcome_ret : MRet outcome := @Ret.
Global Instance outcome_bind : MBind outcome := fun A B k m => Py.bind m k.

(** A well-formed [bytes] value. *)
Definition is_byte (b : Z) : Prop := 0 <= b < 256.

(** ** jmcore/btc_script.py *)

(** The body of the [while absvalue:] loop of [_encode_scriptnum]:
    [result.append(absvalue & 0xFF); absvalue >>= 8].  [fuel] bounds the number
    of iterations; [scriptnum_fuel] is always enough (see
    [scriptnum_loop_fuel]). *)
Fixpoint scriptnum_loop (fuel : nat) (absvalue : Z) (result : list Z) : list Z :=
  if absvalue =? 0 then result
  else match fuel with
       | O => result
       | S fuel' =>
           scriptnum_loop fuel' (Z.shiftr absvalue 8) (result ++ [Z.land absvalue 255])
       end.

Definition scriptnum_fuel (absvalue : Z) : nat := S (Z.to_nat (Z.log2 absvalue)).

(** [result[-1] |= 0x80] *)
Definition or_last (mask : Z) (result : list Z) : list Z :=
  match result with
  | [] => []
  | _ => removelast result ++ [Z.lor (List.last result 0) mask]
  end.

Definition _encode_scriptnum (n : Z) : list Z :=
  if n =? 0 then []
  else
    let neg := n <? 0 in
    let absvalue := Z.abs n in
    let result := scriptnum_loop (scriptnum_fuel absvalue) absvalue [] in
    if negb (Z.land (List.last result 0) 128 =? 0)
    then result ++ [if neg then 128 else 0]
    else if neg then or_last 128 result
    else result.

Definition _push_data (data : list Z) : outcome (list Z) :=
  let data_len := len data in
  if data_len <=? 75 then Ret ([data_len] ++ data)
  else if data_len <=? 255 then Ret ([76; data_len] ++ data)
  else if data_len <=? 65535 then
    packed ← struct_pack_le 2 data_len; Ret ([77] ++ packed ++ data)
  else
    packed ← struct_pack_le 4 data_len; Ret ([78] ++ packed ++ data).

Definition op_checklocktimeverify : Z := 177.
Definition op_drop : Z := 117.
Definition op_checksig : Z := 172.

Definition invalid_pubkey_length (n : Z) : exn :=
  ValueError ("Invalid pubkey length: " +:+ pretty n +:+ ", expected 33").

Definition mk_freeze_script (pubkey_hex : string) (locktime : Z) : outcome (list Z) :=
  pubkey_bytes ← bytes_fromhex pubkey_hex;
  if negb (len pubkey_bytes =? 33)
  then Raise (invalid_pubkey_length (len pubkey_bytes))
  else
    let locktime_bytes := _encode_scriptnum locktime in
    pushed_locktime ← _push_data locktime_bytes;
    pushed_pubkey ← _push_data pubkey_bytes;
    Ret (pushed_locktime ++ [op_checklocktimeverify] ++ [op_drop]
           ++ pushed_pubkey ++ [op_checksig]).

(** *** Script numbers as the specification words them

    The little-endian base-256 digits of a magnitude, most significant digit
    non-zero, written without reference to the loop above. *)
Definition magnitude_length (m : Z) : nat := S (Z.to_nat (Z.log2 m / 8)).

Definition magnitude_bytes (m : Z) : list Z :=
  map (fun i : nat => (m / 256 ^ Z.of_nat i) mod 256) (seq 0 (magnitude_length m)).

Definition top_bit_set (bs : list Z) : bool := 128 <=? List.last bs 0.

Definition scriptnum_spec (n : Z) : list Z :=
  if n =? 0 then []
  else
    let mag := magnitude_bytes (Z.abs n) in
    if top_bit_set mag then mag ++ [if n <? 0 then 128 else 0]
    else if n <? 0 then removelast mag ++ [List.last mag 0 + 128]
    else mag.

(** The value of a little-endian byte string, and the integer a script number
    denotes: the top bit of the last byte is the sign, the rest the
    magnitude. *)
Fixpoint le_value (bs : list Z) : Z :=
  match bs with
  | [] => 0
  | b :: tl => b + 256 * le_value tl
  end.

Definition decode_scriptnum (bs : list Z) : Z :=
  match bs with
  | [] => 0
  | _ =>
      if top_bit_set bs
      then - (le_value bs - 128 * 256 ^ (len bs - 1))
      else le_value bs
  end.

(** *** Scripts as opcode sequences

    How a script interpreter splits a byte string: an opcode up to 75 pushes
    that many bytes, 76/77/78 push a count given by the next 1/2/4
    little-endian bytes, anything else is a plain opcode. *)
Inductive script_op : Type :=
| OpPush (data : list Z)
| OpCode (code : Z).

Definition take_push (count : Z) (rest : list Z) : option (list Z * list Z) :=
  if (0 <=? count) && (count <=? len rest)
  then Some (take (Z.to_nat count) rest, drop (Z.to_nat count) rest)
  else None.

Definition next_op (script : list Z) : option (script_op * list Z) :=
  match script with
  | [] => None
  | b :: rest =>
      let counted (width : nat) :=
        if Z.of_nat width <=? len rest
        then '(d, r) ← take_push (le_value (take width rest)) (drop width rest);
             Some (OpPush d, r)
        else None in
      if (0 <=? b) && (b <=? 75) then '(d, r) ← take_push b rest; Some (OpPush d, r)
      else if b =? 76 then counted 1%nat
      else if b =? 77 then counted 2%nat
      else if b =? 78 then counted 4%nat
      else Some (OpCode b, rest)
  end.

Fixpoint script_ops_fuel (fuel : nat) (script : list Z) : option (list script_op) :=
  match script with
  | [] => Some []
  | _ =>
      match fuel with
      | O => None
      | S fuel' =>
          '(op, rest) ← next_op script;
          ops ← script_ops_fuel fuel' rest;
          Some (op :: ops)
      end
  end.

Definition script_ops (script : list Z) : option (list script_op) :=
  script_ops_fuel (length script) script.

Definition is_opcode (code : Z) (op : script_op) : bool :=
  match op with
  | OpCode c => c =? code
  | OpPush _ => false
  end.

Definition count_opcode (code : Z) (ops : list script_op) : nat :=
  length (List.filter (is_opcode code) ops).

(** Number of occurrences of a byte value in a byte string
    ([bytes.count]). *)
Definition byte_count (b : Z) (bs : list Z) : nat := count_occ Z.eq_dec bs b.

(** The key used by [tests/test_btc_script.py]. *)
Definition test_pubkey_hex : string :=
  "02a1b2c3d4e5f6a7b8c9d0e1f2a3b4c5d6e7f8a9b0c1d2e3f4a5b6c7d8e9f0a1b2".

Definition test_pubkey_bytes : list Z :=
  [2; 161; 178; 195; 212; 229; 246; 167; 184; 201; 208;
   225; 242; 163; 180; 197; 214; 231; 248; 169; 176; 193;
   210; 227; 244; 165; 182; 199; 216; 233; 240; 161; 178].

(** ** jmcore/models.py *)

Module models.

(** A value stored in an offer's [fidelity_bond_data] mapping. *)
Inductive pyvalue : Type :=
| PyStr (s : string)
| PyInt (n : Z)
| PyNone.

Global Instance pyvalue_eq_dec : EqDecision pyvalue.
Proof. solve_decision. Defined.

(** [d.get(key)] *)
Definition dict_get (d : gmap string pyvalue) (key : string) : pyvalue :=
  default PyNone (d !! key).

(** [s == v] for a string [s] *)
Definition str_eq (s : string) (v : pyvalue) : bool :=
  match v with
  | PyStr t => bool_decide (s = t)
  | PyInt _ | PyNone => false
  end.

(** Modelled from the spec: [jmcore/models.py] is not among the sources.  The
    fields are those of section 3 of the specification, under the names the
    aggregator and the validator read and write. *)
Record FidelityBond : Type := mkFidelityBond {
  counterparty : string;
  utxo_txid : string;
  utxo_vout : Z;
  amount : Z;
  locktime : Z;
  bond_value : option Z;
  utxo_confirmation_timestamp : option Z;
  directory_node : option string
}.

Record Offer : Type := mkOffer {
  offer_counterparty : string;
  oid : Z;
  terms : string;
  fidelity_bond_data : option (gmap string pyvalue);
  fidelity_bond_value : option Z;
  offer_directory_node : option string
}.

Record OrderBook : Type := mkOrderBook {
  offers : list Offer;
  fidelity_bonds : list FidelityBond;
  directory_nodes : list string;
  timestamp : Z
}.

(** [bond.directory_node = node_id] and [offer.directory_node = node_id] *)
Definition set_bond_node (node_id : string) (b : FidelityBond) : FidelityBond :=
  mkFidelityBond (counterparty b) (utxo_txid b) (utxo_vout b) (amount b) (locktime b)
    (bond_value b) (utxo_confirmation_timestamp b) (Some node_id).

Definition set_offer_node (node_id : string) (o : Offer) : Offer :=
  mkOffer (offer_counterparty o) (oid o) (terms o) (fidelity_bond_data o)
    (fidelity_bond_value o) (Some node_id).

(** [offer.fidelity_bond_value = v] *)
Definition set_offer_value (v : Z) (o : Offer) : Offer :=
  mkOffer (offer_counterparty o) (oid o) (terms o) (fidelity_bond_data o)
    (Some v) (offer_directory_node o).

(** [bond.bond_value = v; bond.amount = a; bond.utxo_confirmation_timestamp = t] *)
Definition set_bond_valuation (v : option Z) (a : Z) (t : option Z) (b : FidelityBond)
  : FidelityBond :=
  mkFidelityBond (counterparty b) (utxo_txid b) (utxo_vout b) a (locktime b)
    v t (directory_node b).

(** [OrderBook(timestamp=now)] *)
Definition new_orderbook (now : Z) : OrderBook := mkOrderBook [] [] [] now.

Definition note_node (node_id : string) (nodes : list string) : list string :=
  if bool_decide (node_id ∈ nodes) then nodes else nodes ++ [node_id].

(** Modelled from the spec: [OrderBook.add_offers] and
    [OrderBook.add_fidelity_bonds] are not among the sources.  "Offers are
    simply concatenated with their source node tagged on"; the node joins the
    set of contributing directory nodes. *)
Definition add_offers (new_offers : list Offer) (node_id : string) (ob : OrderBook)
  : OrderBook :=
  mkOrderBook (offers ob ++ map (set_offer_node node_id) new_offers)
    (fidelity_bonds ob) (note_node node_id (directory_nodes ob)) (timestamp ob).

Definition add_fidelity_bonds (bonds : list FidelityBond) (node_id : string)
    (ob : OrderBook) : OrderBook :=
  mkOrderBook (offers ob)
    (fidelity_bonds ob ++ map (set_bond_node node_id) bonds)
    (note_node node_id (directory_nodes ob)) (timestamp ob).

(** [orderbook.fidelity_bonds = bonds] *)
Definition set_fidelity_bonds (bonds : list FidelityBond) (ob : OrderBook) : OrderBook :=
  mkOrderBook (offers ob) bonds (directory_nodes ob) (timestamp ob).

Definition set_offers (new_offers : list Offer) (ob : OrderBook) : OrderBook :=
  mkOrderBook new_offers (fidelity_bonds ob) (directory_nodes ob) (timestamp ob).

End models.

(** ** jmcore/mempool_api.py *)

Module mempool_api.

Record TxOut : Type := mkTxOut {
  scriptpubkey : string;
  scriptpubkey_asm : string;
  scriptpubkey_type : string;
  scriptpubkey_address : option string;
  value : Z
}.

Record TxStatus : Type := mkTxStatus {
  confirmed : bool;
  block_height : option Z;
  block_hash : option string;
  block_time : option Z
}.

(** [vin] holds untyped JSON objects, which nothing here inspects; they are
    kept as text. *)
Record Transaction : Type := mkTransaction {
  txid : string;
  version : Z;
  locktime : Z;
  tx_size : Z;
  weight : Z;
  fee : Z;
  vin : list string;
  vout : list TxOut;
  status : TxStatus
}.

(** The body of an HTTP response, by what the client can make of it. *)
Inductive body : Type :=
| TxJson (tx : Transaction)
| IntText (n : Z)
| OtherJson
| NotJson.

(** What [response.json()] returns. *)
Inductive json : Type :=
| JTransaction (tx : Transaction)
| JInt (n : Z)
| JOther.

(** [response.json()] *)
Definition response_json (b : body) : outcome json :=
  match b with
  | TxJson tx => Ret (JTransaction tx)
  | IntText n => Ret (JInt n)
  | OtherJson => Ret JOther
  | NotJson => Raise (ValueError "Expecting value")
  end.

(** The pydantic constructor [Transaction], applied to the decoded object. *)
Definition Transaction_of (data : json) : outcome Transaction :=
  match data with
  | JTransaction tx => Ret tx
  | JInt _ => Raise TypeError
  | JOther => Raise ValidationError
  end.

(** [int(response.text)] *)
Definition response_int (b : body) : outcome Z :=
  match b with
  | IntText n => Ret n
  | _ => Raise (ValueError "invalid literal for int() with base 10")
  end.

(** [isinstance(e, httpx.HTTPError)] *)
Definition is_HTTPError (e : exn) : bool :=
  match e with
  | HTTPError => true
  | _ => false
  end.

Section Client.

(** The state of everything outside the process, and an HTTP request against
    it: [client_get url] stands for [await self.client.get(url)] followed by
    [response.raise_for_status()].  It either yields the response body or
    raises: [HTTPError] for what [httpx] reports, something else for a
    failure below it (the SOCKS transport). *)
Context {World : Type}.
Variable client_get : string -> World -> outcome body * World.
Variable base_url : string.

Definition _get (endpoint : string) : io World json :=
  let url := base_url +:+ "/" +:+ endpoint in
  try_except
    (await response ← client_get url;
     io_lift (response_json response))
    is_HTTPError
    (fun _ => io_raise MempoolAPIError).

Definition get_transaction (txid : string) : io World Transaction :=
  await data ← _get ("tx/" +:+ txid);
  io_lift (Transaction_of data).

Definition get_block_height : io World Z :=
  await response ← client_get (base_url +:+ "/blocks/tip/height");
  io_lift (response_int response).

Definition get_utxo_confirmations (txid : string) (vout : Z) : io World (option Z) :=
  try_except
    (await tx ← get_transaction txid;
     if negb (confirmed (status tx)) || bool_decide (block_height (status tx) = None)
     then io_ret None
     else
       await current_height ← get_block_height;
       let confirmations :=
         current_height - default 0 (block_height (status tx)) + 1 in
       io_ret (Some (Z.max 0 confirmations)))
    is_MempoolAPIError
    (fun _ => io_ret None).

Definition get_utxo_value (txid : string) (vout_index : Z) : io World (option Z) :=
  try_except
    (await tx ← get_transaction txid;
     if len (vout tx) <=? vout_index
     then io_ret None
     else
       await output ← io_lift (getitem (vout tx) vout_index);
       io_ret (Some (value output)))
    is_MempoolAPIError
    (fun _ => io_ret None).

Definition test_connection : io World bool :=
  try_except
    (await response ← client_get (base_url +:+ "/blocks/tip/height");
     await height ← io_lift (response_int response);
     io_ret true)
    (fun _ => true)
    (fun _ => io_ret false).

End Client.

End mempool_api.

(** ** orderbook_watcher/bond_validator.py *)

Module bond_validator.

Import models mempool_api.

Section Validator.

Context {World : Type}.
Variable client_get : string -> World -> outcome body * World.
Variable base_url : string.

Definition validate_bond (bond : FidelityBond) : io World bool :=
  try_except
    (await confirmations ←
       get_utxo_confirmations client_get base_url (utxo_txid bond) (utxo_vout bond);
     match confirmations with
     | None => io_ret false
     | Some c =>
         if c <? 1 then io_ret false
         else
           await value ←
             get_utxo_value client_get base_url (utxo_txid bond) (utxo_vout bond);
           match value with
           | None => io_ret false
           | Some v =>
               if negb (v =? amount bond) then io_ret false
               else io_ret true
           end
     end)
    (fun _ => true)
    (fun _ => io_ret false).

(** The validations run concurrently; [worlds i] is the outside world as the
    task for the bond at position [i] meets it.  [gather] hands back the
    tasks' results in order, exceptions included. *)
Definition keep_valid (valid_bonds : list FidelityBond)
    (entry : FidelityBond * outcome bool) : list FidelityBond :=
  let '(bond, result) := entry in
  match result with
  | Raise _ => valid_bonds
  | Ret passed => if passed then valid_bonds ++ [bond] else valid_bonds
  end.

Definition validate_bonds (bonds : list FidelityBond) (worlds : nat -> World)
  : outcome (list FidelityBond) :=
  let tasks := imap (fun i bond => fst (validate_bond bond (worlds i))) bonds in
  let results := tasks in
  Ret (fold_left keep_valid (zip bonds results) []).

End Validator.

End bond_validator.

(** ** orderbook_watcher/aggregator.py *)

Module aggregator.

Import models mempool_api.

(** One directory client during one [fetch_from_directory]: what constructing
    it, [connect()], [fetch_orderbooks()] and [close()] do when they are
    called.  The client itself ([directory_client.py]) is not among the
    sources. *)
Record session : Type := mkSession {
  construct : outcome unit;
  connect : outcome unit;
  fetch_orderbooks : outcome (list Offer * list FidelityBond);
  close : outcome unit
}.

(** A listening client as [get_live_orderbook] sees it: the results of
    [get_current_offers()] and [get_current_bonds()]. *)
Record listener : Type := mkListener {
  get_current_offers : list Offer;
  get_current_bonds : list FidelityBond
}.

(** Python truthiness of a list. *)
Definition truthy {A : Type} (l : list A) : bool :=
  match l with
  | [] => false
  | _ => true
  end.

(** [x or y] on an optional integer. *)
Definition or_else (x : option Z) (y : Z) : Z :=
  match x with
  | Some v => if v =? 0 then y else v
  | None => y
  end.

(** [f"{onion_address}:{port}"] *)
Definition node_id_of (onion_address : string) (port : Z) : string :=
  onion_address +:+ ":" +:+ pretty port.

(** [f"{bond.utxo_txid}:{bond.utxo_vout}"] *)
Definition cache_key (bond : FidelityBond) : string :=
  utxo_txid bond +:+ ":" +:+ pretty (utxo_vout bond).

(** A [dict] whose order of insertion is read back. *)
Definition dict_contains {V : Type} (k : string) (d : list (string * V)) : bool :=
  bool_decide (k ∈ d.*1).

Definition dict_values {V : Type} (d : list (string * V)) : list V := d.*2.

Section Aggregator.

(** [jmcore/bond_calc.py] is not among the sources: the value function, called
    with its default interest rate and exponent, is a parameter. *)
Variable calculate_timelocked_fidelity_bond_value : Z -> Z -> Z -> Z -> outcome Z.

(** The valuation tasks run concurrently, each awaiting one
    [self.mempool_api.get_transaction(bond.utxo_txid)]; [tx_lookup i txid] is
    what that call yields in the task for the bond at position [i]. *)
Variable tx_lookup : nat -> string -> outcome Transaction.

Definition fetch_from_directory (onion_address : string) (port : Z) (client : session)
  : outcome (list Offer * list FidelityBond * string) :=
  let node_id := node_id_of onion_address port in
  _ ← construct client;
  let guarded :=
    match (_ ← connect client; fetch_orderbooks client) with
    | Ret (offers, bonds) =>
        (map (set_offer_node node_id) offers, map (set_bond_node node_id) bonds, node_id)
    | Raise _ => ([], [], node_id)
    end in
  _ ← close client;
  Ret guarded.

Definition _calculate_bond_value_single (bond : FidelityBond) (current_time : Z)
    (reply : outcome Transaction) : FidelityBond :=
  match bond_value bond with
  | Some _ => bond
  | None =>
      let attempt : outcome FidelityBond :=
        tx_data ← reply;
        if negb (confirmed (status tx_data)) then Ret bond
        else if len (vout tx_data) <=? utxo_vout bond then Ret bond
        else
          utxo ← getitem (vout tx_data) (utxo_vout bond);
          let amount := value utxo in
          let confirmation_time := or_else (block_time (status tx_data)) current_time in
          bond_value ← calculate_timelocked_fidelity_bond_value
                         amount confirmation_time (models.locktime bond) current_time;
          Ret (set_bond_valuation (Some bond_value) amount (Some confirmation_time) bond) in
      match attempt with
      | Ret b => b
      | Raise _ => bond
      end
  end.

(** [asyncio.gather(..., return_exceptions=True)] hands back every task's
    result, exceptions included, in the order of the tasks. *)
Definition gather {A : Type} (tasks : list (outcome A)) : outcome (list (outcome A)) :=
  Ret tasks.

Definition _calculate_bond_values (orderbook : OrderBook) (current_time : Z)
  : outcome OrderBook :=
  let valued :=
    imap (fun i bond =>
            _calculate_bond_value_single bond current_time (tx_lookup i (utxo_txid bond)))
         (fidelity_bonds orderbook) in
  let tasks := map Ret valued in
  _ ← gather tasks;
  Ret (set_fidelity_bonds valued orderbook).

Definition merge_result (new_orderbook : OrderBook)
    (result : outcome (list Offer * list FidelityBond * string)) : OrderBook :=
  match result with
  | Raise _ => new_orderbook
  | Ret (offers, bonds, node_id) =>
      if truthy offers || truthy bonds
      then add_fidelity_bonds bonds node_id (add_offers offers node_id new_orderbook)
      else new_orderbook
  end.

Definition update_orderbook (directory_nodes : list (string * Z * session)) (now : Z)
  : outcome OrderBook :=
  let tasks :=
    map (fun '(onion_address, port, client) =>
           fetch_from_directory onion_address port client) directory_nodes in
  results ← gather tasks;
  let new_orderbook := fold_left merge_result results (new_orderbook now) in
  new_orderbook ← _calculate_bond_values new_orderbook now;
  Ret new_orderbook.

(** The loops of [get_live_orderbook]. *)
Definition collect (orderbook : OrderBook) (entry : string * listener) : OrderBook :=
  let '(node_id, client) := entry in
  let offers := map (set_offer_node node_id) (get_current_offers client) in
  let bonds := map (set_bond_node node_id) (get_current_bonds client) in
  add_fidelity_bonds bonds node_id (add_offers offers node_id orderbook).

Definition keep_first (unique_bonds : list (string * FidelityBond)) (bond : FidelityBond)
  : list (string * FidelityBond) :=
  if dict_contains (cache_key bond) unique_bonds then unique_bonds
  else unique_bonds ++ [(cache_key bond, bond)].

Definition load_cached (_bond_cache : gmap string FidelityBond) (bond : FidelityBond)
  : FidelityBond :=
  match _bond_cache !! cache_key bond with
  | Some cached_bond =>
      set_bond_valuation (bond_value cached_bond) (amount cached_bond)
        (utxo_confirmation_timestamp cached_bond) bond
  | None => bond
  end.

Definition store_valued (_bond_cache : gmap string FidelityBond) (bond : FidelityBond)
  : gmap string FidelityBond :=
  match bond_value bond with
  | Some _ => <[cache_key bond := bond]> _bond_cache
  | None => _bond_cache
  end.

Definition matches (offer : Offer) (data : gmap string pyvalue) (b : FidelityBond) : bool :=
  bool_decide (counterparty b = offer_counterparty offer)
  && str_eq (utxo_txid b) (dict_get data "utxo_txid").

Definition attach_value (bonds : list FidelityBond) (offer : Offer) : Offer :=
  match fidelity_bond_data offer with
  | None => offer
  | Some data =>
      if bool_decide (data = ∅) then offer
      else
        let matching_bonds := List.filter (matches offer data) bonds in
        match matching_bonds with
        | b :: _ =>
            match bond_value b with
            | Some v => set_offer_value v offer
            | None => offer
            end
        | [] => offer
        end
  end.

Definition get_live_orderbook (clients : list (string * listener))
    (_bond_cache : gmap string FidelityBond) (calculate_bonds : bool) (now : Z)
  : outcome (OrderBook * gmap string FidelityBond) :=
  let orderbook := fold_left collect clients (new_orderbook now) in
  let unique_bonds := fold_left keep_first (fidelity_bonds orderbook) [] in
  let orderbook := set_fidelity_bonds (dict_values unique_bonds) orderbook in
  if calculate_bonds then
    let orderbook :=
      set_fidelity_bonds (map (load_cached _bond_cache) (fidelity_bonds orderbook))
        orderbook in
    orderbook ← _calculate_bond_values orderbook now;
    let _bond_cache := fold_left store_valued (fidelity_bonds orderbook) _bond_cache in
    let orderbook :=
      set_offers (map (attach_value (fidelity_bonds orderbook)) (offers orderbook))
        orderbook in
    Ret (orderbook, _bond_cache)
  else Ret (orderbook, _bond_cache).

(** One turn of the loop of [_background_bond_calculator], for the order book
    taken from the queue. *)
Definition _background_bond_calculator_step (orderbook : OrderBook) (now : Z)
  : outcome OrderBook :=
  orderbook ← _calculate_bond_values orderbook now;
  Ret (set_offers (map (attach_value (fidelity_bonds orderbook)) (offers orderbook))
         orderbook).

End Aggregator.

(** *** The merge as the specification words it *)

(** The UTXO a bond refers to: the identity used for deduplication. *)
Definition utxo_ref (b : FidelityBond) : string * Z := (utxo_txid b, utxo_vout b).

(** The fields of a bond that valuation never writes. *)
Definition bond_identity (b : FidelityBond) : string * string * Z * Z * option string :=
  (counterparty b, utxo_txid b, utxo_vout b, models.locktime b, directory_node b).

Definition ref_of_identity (id : string * string * Z * Z * option string) : string * Z :=
  let '(_, txid, vout, _, _) := id in (txid, vout).

Definition key_of_identity (id : string * string * Z * Z * option string) : string :=
  let '(_, txid, vout_index, _, _) := id in txid +:+ ":" +:+ pretty vout_index.

(** First-seen-wins: a bond is kept unless an earlier one has the same UTXO. *)
Fixpoint first_seen (seen : list (string * Z)) (bonds : list FidelityBond)
  : list FidelityBond :=
  match bonds with
  | [] => []
  | b :: rest =>
      if bool_decide (utxo_ref b ∈ seen) then first_seen seen rest
      else b :: first_seen (utxo_ref b :: seen) rest
  end.

(** Everything the clients hold, tagged with its node, in the order of the
    clients. *)
Definition merged_bonds (clients : list (string * listener)) : list FidelityBond :=
  concat (map (fun '(node_id, client) =>
                 map (set_bond_node node_id) (get_current_bonds client)) clients).

Definition merged_offers (clients : list (string * listener)) : list Offer :=
  concat (map (fun '(node_id, client) =>
                 map (set_offer_node node_id) (get_current_offers client)) clients).

(** A node whose fetch went through, and what it delivered. *)
Definition fetched (client : session) : option (list Offer * list FidelityBond) :=
  match construct client, connect client, fetch_orderbooks client, close client with
  | Ret _, Ret _, Ret data, Ret _ => Some data
  | _, _, _, _ => None
  end.

Definition fetched_offers (node : string * Z * session) : list Offer :=
  let '(onion_address, port, client) := node in
  match fetched client with
  | Some (offers, _) => map (set_offer_node (node_id_of onion_address port)) offers
  | None => []
  end.

Definition fetched_bonds (node : string * Z * session) : list FidelityBond :=
  let '(onion_address, port, client) := node in
  match fetched client with
  | Some (_, bonds) => map (set_bond_node (node_id_of onion_address port)) bonds
  | None => []
  end.

Definition fetch_ok (node : string * Z * session) : bool :=
  let '(_, _, client) := node in
  match fetched client with
  | Some _ => true
  | None => false
  end.

(** An offer refers to a bond's UTXO when its bond data names the
    transaction id and the output index of that bond. *)
Definition references (offer : Offer) (b : FidelityBond) : Prop :=
  exists data, fidelity_bond_data offer = Some data
               /\ dict_get data "utxo_txid" = PyStr (utxo_txid b)
               /\ dict_get data "utxo_vout" = PyInt (utxo_vout b).

(** A character of a string. *)
Fixpoint occurs (c : ascii) (s : string) : Prop :=
  match s with
  | EmptyString => False
  | String c' s' => c = c' \/ occurs c s'
  end.

End aggregator.

(** ** Concrete inputs *)

Module examples.

Import models mempool_api aggregator.

(** A stand-in for the value function, which is not among the sources: here
    the value of a bond is the amount locked. *)
Definition value_is_amount (amount confirmation_time locktime current_time : Z)
  : outcome Z := Ret amount.

(** One maker with two bonds in the outputs 0 and 1 of one transaction, and
    an offer of that maker whose bond data names output 1. *)
Definition bond_at (vout_index : Z) : FidelityBond :=
  mkFidelityBond "maker" "aa11" vout_index 0 1893456000 None None None.

Definition offer_for_output_1 : Offer :=
  mkOffer "maker" 0 "sw0reloffer"
    (Some (<["utxo_txid" := PyStr "aa11"]> (<["utxo_vout" := PyInt 1]> ∅)))
    None None.

Definition two_bond_clients : list (string * listener) :=
  [("node1.onion:5222", mkListener [offer_for_output_1] [bond_at 0; bond_at 1])].

Definition two_output_tx : Transaction :=
  mkTransaction "aa11" 2 0 250 1000 500 []
    [mkTxOut "0020aa" "OP_0 aa" "v0_p2wsh" None 100;
     mkTxOut "0020bb" "OP_0 bb" "v0_p2wsh" None 200]
    (mkTxStatus true (Some 610000) (Some "00ab") (Some 1577836800)).

Definition confirmed_lookup (i : nat) (txid : string) : outcome Transaction :=
  Ret two_output_tx.

(** An outside world that answers the requests of one scenario in order, and
    refuses any further one. *)
Definition scripted_get (url : string) (w : list (outcome body))
  : outcome body * list (outcome body) :=
  match w with
  | reply :: rest => (reply, rest)
  | [] => (Raise HTTPError, [])
  end.

Definition api_url : string := "https://mempool.space/api".

(** Two directory nodes: the first cannot be reached, the second delivers an
    offer and a bond. *)
Definition unreachable : session :=
  mkSession (Ret ()) (Raise (ConnectionFailure "timed out")) (Ret ([], [])) (Ret ()).

Definition serving : session :=
  mkSession (Ret ()) (Ret ()) (Ret ([offer_for_output_1], [bond_at 1])) (Ret ()).

Definition one_bad_node : list (string * Z * session) :=
  [("bad.onion", 5222, unreachable); ("good.onion", 5222, serving)].

(** A stand-in for a 32-byte digest. *)
Definition zero_digest (data : list Z) : list Z := replicate 32 0.

End examples.

(** ** jmcore/btc_script.py: the witness program *)

Section P2WSH.

(** [hashlib.sha256(data).digest()] *)
Variable sha256 : list Z -> list Z.

Definition redeem_script_to_p2wsh_script (redeem_script : list Z) : outcome (list Z) :=
  let op_0 := 0 in
  let script_hash := sha256 redeem_script in
  pushed ← _push_data script_hash;
  Ret ([op_0] ++ pushed).

End P2WSH.

(** * Properties *)

(** ** Bytes and bit masks *)

Lemma byte_cases (P : Z -> bool) :
  forallb P (seqZ 0 256) = true -> forall x, 0 <= x < 256 -> P x = true.
Proof.
  intros Hall x Hx.
  rewrite forallb_forall in Hall. apply Hall.
  apply list_elem_of_In, elem_of_seqZ. lia.
Qed.

Lemma land_128_zero (x : Z) : 0 <= x < 256 -> (Z.land x 128 =? 0) = (x <? 128).
Proof.
  intros Hx. apply Bool.eqb_prop.
  apply (byte_cases (fun x => Bool.eqb (Z.land x 128 =? 0) (x <? 128))); [|done].
  vm_compute. reflexivity.
Qed.

Lemma lor_128 (x : Z) : 0 <= x < 128 -> Z.lor x 128 = x + 128.
Proof.
  intros Hx. apply Z.eqb_eq.
  assert (H : negb (x <? 128) || (Z.lor x 128 =? x + 128) = true).
  { apply (byte_cases (fun x => negb (x <? 128) || (Z.lor x 128 =? x + 128))); [|lia].
    vm_compute. reflexivity. }
  destruct (Z.ltb_spec x 128); [done | lia].
Qed.

Lemma land_255 (a : Z) : Z.land a 255 = a mod 256.
Proof. change 255 with (Z.ones 8). rewrite Z.land_ones by lia. reflexivity. Qed.

Lemma shiftr_8 (a : Z) : Z.shiftr a 8 = a / 256.
Proof. rewrite Z.shiftr_div_pow2 by lia. reflexivity. Qed.

(** ** The magnitude digits *)

Lemma magnitude_ind (P : Z -> Prop) :
  (forall a, 0 < a < 256 -> P a) ->
  (forall a, 256 <= a -> P (a / 256) -> P a) ->
  forall a, 0 < a -> P a.
Proof.
  intros Hsmall Hstep a Ha.
  assert (Hwf : forall b, 0 <= b -> 0 < b -> P b).
  { apply (Z_lt_induction (fun b => 0 < b -> P b)).
    intros b IH Hb.
    destruct (Z_lt_ge_dec b 256) as [Hlt | Hge].
    - apply Hsmall. lia.
    - apply Hstep; [lia|].
      assert (0 < b / 256) by (apply Z.div_str_pos; lia).
      assert (b / 256 < b) by (apply Z.div_lt; lia).
      apply IH; lia. }
  apply Hwf; lia.
Qed.

Lemma magnitude_bytes_small (a : Z) : 0 < a < 256 -> magnitude_bytes a = [a].
Proof.
  intros Ha. unfold magnitude_bytes, magnitude_length.
  assert (Hlog : Z.log2 a < 8) by (apply Z.log2_lt_pow2; lia).
  assert (0 <= Z.log2 a) by apply Z.log2_nonneg.
  replace (Z.log2 a / 8) with 0 by (symmetry; apply Z.div_small; lia).
  simpl. rewrite Z.div_1_r, Z.mod_small by lia. reflexivity.
Qed.

Lemma magnitude_length_step (a : Z) :
  256 <= a -> magnitude_length a = S (magnitude_length (a / 256)).
Proof.
  intros Ha. unfold magnitude_length. f_equal.
  rewrite <- shiftr_8, Z.log2_shiftr by lia.
  assert (8 <= Z.log2 a) by (apply Z.log2_le_pow2; lia).
  rewrite Z.max_r by lia.
  replace (Z.log2 a) with ((Z.log2 a - 8) + 1 * 8) at 1 by lia.
  rewrite Z.div_add by lia.
  assert (0 <= (Z.log2 a - 8) / 8) by (apply Z.div_pos; lia).
  lia.
Qed.

Lemma magnitude_bytes_step (a : Z) :
  256 <= a -> magnitude_bytes a = a mod 256 :: magnitude_bytes (a / 256).
Proof.
  intros Ha. unfold magnitude_bytes.
  rewrite (magnitude_length_step a Ha).
  rewrite <- cons_seq. cbn [map]. f_equal.
  - rewrite Z.div_1_r. reflexivity.
  - rewrite <- seq_shift, map_map.
    apply map_ext. intros i.
    rewrite Nat2Z.inj_succ, Z.pow_succ_r by lia.
    rewrite Z.div_div by lia. reflexivity.
Qed.

Lemma magnitude_bytes_is_byte (a : Z) : 0 < a -> Forall is_byte (magnitude_bytes a).
Proof.
  revert a. apply magnitude_ind; intros a Ha.
  - rewrite magnitude_bytes_small by done. repeat constructor; unfold is_byte; lia.
  - intros IH. rewrite magnitude_bytes_step by done.
    constructor; [|done]. unfold is_byte. apply Z.mod_pos_bound. lia.
Qed.

Lemma magnitude_bytes_value (a : Z) : 0 < a -> le_value (magnitude_bytes a) = a.
Proof.
  revert a. apply magnitude_ind; intros a Ha.
  - rewrite magnitude_bytes_small by done. simpl. lia.
  - intros IH. rewrite magnitude_bytes_step by done. cbn [le_value].
    rewrite IH. pose proof (Z.div_mod a 256). lia.
Qed.

Lemma magnitude_bytes_nonempty (a : Z) : 0 < a -> magnitude_bytes a <> [].
Proof. intros _. unfold magnitude_bytes, magnitude_length. rewrite <- cons_seq. done. Qed.

Lemma magnitude_bytes_last (a : Z) : 0 < a -> 0 < List.last (magnitude_bytes a) 0 < 256.
Proof.
  revert a. apply magnitude_ind; intros a Ha.
  - rewrite magnitude_bytes_small by done. simpl. lia.
  - intros IH. rewrite magnitude_bytes_step by done.
    pose proof (magnitude_bytes_nonempty (a / 256)) as Hne.
    destruct (magnitude_bytes (a / 256)) eqn:E.
    + exfalso. apply Hne; [|done]. apply Z.div_str_pos; lia.
    + exact IH.
Qed.

(** The loop of [_encode_scriptnum] computes the magnitude digits, and the
    fuel it is given is enough for it to stop on [absvalue == 0]. *)
Lemma scriptnum_loop_acc (fuel : nat) (a : Z) (r : list Z) :
  scriptnum_loop fuel a r = r ++ scriptnum_loop fuel a [].
Proof.
  revert a r. induction fuel as [|fuel IH]; intros a r; simpl.
  - destruct (a =? 0); rewrite app_nil_r; reflexivity.
  - destruct (a =? 0); [rewrite app_nil_r; reflexivity|].
    rewrite IH, (IH _ [_]). rewrite app_assoc. reflexivity.
Qed.

Lemma scriptnum_loop_magnitude (fuel : nat) (a : Z) :
  0 < a < 2 ^ Z.of_nat fuel -> scriptnum_loop fuel a [] = magnitude_bytes a.
Proof.
  revert a. induction fuel as [|fuel IH]; intros a Ha.
  - simpl in Ha. lia.
  - cbn [scriptnum_loop]. destruct (Z.eqb_spec a 0) as [|_]; [lia|].
    rewrite scriptnum_loop_acc, land_255, shiftr_8. simpl app.
    destruct (Z_lt_ge_dec a 256) as [Hlt | Hge].
    + rewrite magnitude_bytes_small by lia.
      rewrite Z.div_small, Z.mod_small by lia.
      destruct fuel; reflexivity.
    + rewrite magnitude_bytes_step by lia. f_equal.
      apply IH. split; [apply Z.div_str_pos; lia|].
      rewrite Nat2Z.inj_succ, Z.pow_succ_r in Ha by lia.
      apply Z.div_lt_upper_bound; lia.
Qed.

Lemma scriptnum_fuel_enough (a : Z) : 0 < a -> a < 2 ^ Z.of_nat (scriptnum_fuel a).
Proof.
  intros Ha. unfold scriptnum_fuel.
  rewrite Nat2Z.inj_succ, Z2Nat.id by apply Z.log2_nonneg.
  apply Z.log2_spec. lia.
Qed.

Lemma scriptnum_loop_fuel (fuel : nat) (a : Z) :
  0 <= a -> (scriptnum_fuel a <= fuel)%nat ->
  scriptnum_loop fuel a [] = scriptnum_loop (scriptnum_fuel a) a [].
Proof.
  intros Ha Hfuel.
  destruct (Z.eq_dec a 0) as [-> | Hne].
  - destruct fuel; reflexivity.
  - pose proof (scriptnum_fuel_enough a ltac:(lia)) as Hen.
    rewrite !scriptnum_loop_magnitude; [reflexivity | lia |].
    split; [lia|].
    eapply Z.lt_le_trans; [exact Hen|].
    apply Z.pow_le_mono_r; lia.
Qed.

Lemma encode_loop_magnitude (a : Z) :
  0 < a -> scriptnum_loop (scriptnum_fuel a) a [] = magnitude_bytes a.
Proof.
  intros Ha. apply scriptnum_loop_magnitude.
  split; [done | by apply scriptnum_fuel_enough].
Qed.

(** ** Little-endian values and the decoder *)

Lemma len_app {A : Type} (l1 l2 : list A) : len (l1 ++ l2) = len l1 + len l2.
Proof. unfold len. rewrite length_app. lia. Qed.

Lemma len_nonneg {A : Type} (l : list A) : 0 <= len l.
Proof. unfold len. lia. Qed.

Lemma le_value_app (l : list Z) (x : Z) :
  le_value (l ++ [x]) = le_value l + x * 256 ^ len l.
Proof.
  induction l as [|b l IH]; simpl.
  - change (len []) with 0. lia.
  - rewrite IH. unfold len. simpl length.
    rewrite Nat2Z.inj_succ, Z.pow_succ_r by lia. lia.
Qed.

Lemma le_value_bounds (l : list Z) :
  Forall is_byte l -> 0 <= le_value l < 256 ^ len l.
Proof.
  induction 1 as [|b l Hb _ IH]; simpl.
  - change (len []) with 0. lia.
  - unfold len in *. simpl length.
    rewrite Nat2Z.inj_succ, Z.pow_succ_r by lia.
    unfold is_byte in Hb. lia.
Qed.

Lemma split_last (l : list Z) : l <> [] -> l = removelast l ++ [List.last l 0].
Proof. intros H. by apply app_removelast_last. Qed.

Lemma len_removelast (l : list Z) : l <> [] -> len (removelast l) = len l - 1.
Proof.
  intros H. rewrite (split_last l H) at 2.
  rewrite len_app. change (len [_]) with 1. lia.
Qed.

Lemma le_value_split (l : list Z) :
  l <> [] ->
  le_value l = le_value (removelast l) + List.last l 0 * 256 ^ (len l - 1).
Proof.
  intros H. rewrite (split_last l H) at 1.
  rewrite le_value_app, len_removelast by done. reflexivity.
Qed.

Lemma Forall_removelast (l : list Z) : Forall is_byte l -> Forall is_byte (removelast l).
Proof.
  intros H. destruct (decide (l = [])) as [-> | Hne]; [done|].
  rewrite (split_last l Hne) in H. by apply Forall_app in H as [? _].
Qed.

Lemma Forall_last (l : list Z) : Forall is_byte l -> l <> [] -> is_byte (List.last l 0).
Proof.
  intros H Hne. rewrite (split_last l Hne) in H.
  apply Forall_app in H as [_ H]. by inversion H.
Qed.

Lemma last_snoc (l : list Z) (x : Z) : List.last (l ++ [x]) 0 = x.
Proof. apply last_last. Qed.

(** A byte string of length [k >= 1] denotes a number of magnitude below
    [128 * 256^(k-1)]. *)
Lemma decode_scriptnum_bound (bs : list Z) :
  Forall is_byte bs -> bs <> [] ->
  Z.abs (decode_scriptnum bs) < 128 * 256 ^ (len bs - 1).
Proof.
  intros Hb Hne.
  pose proof (Forall_last bs Hb Hne) as Hl. unfold is_byte in Hl.
  pose proof (le_value_bounds _ (Forall_removelast bs Hb)) as Hi.
  rewrite len_removelast in Hi by done.
  pose proof (le_value_split bs Hne) as Hv.
  assert (0 < 256 ^ (len bs - 1)).
  { apply Z.pow_pos_nonneg; [lia|]. unfold len. destruct bs; [done | simpl; lia]. }
  unfold decode_scriptnum, top_bit_set.
  destruct bs as [|b bs']; [done|].
  set (l := b :: bs') in *.
  destruct (Z.leb_spec 128 (List.last l 0)); nia.
Qed.

(** ** The encoder *)

Lemma encode_scriptnum_unfold (n : Z) :
  n <> 0 ->
  _encode_scriptnum n =
    let mag := magnitude_bytes (Z.abs n) in
    if top_bit_set mag then mag ++ [if n <? 0 then 128 else 0]
    else if n <? 0 then or_last 128 mag
    else mag.
Proof.
  intros Hn. unfold _encode_scriptnum.
  destruct (Z.eqb_spec n 0); [done|].
  rewrite encode_loop_magnitude by lia. cbn zeta.
  pose proof (magnitude_bytes_last (Z.abs n) ltac:(lia)) as Hl.
  rewrite land_128_zero by lia.
  unfold top_bit_set.
  destruct (Z.ltb_spec (List.last (magnitude_bytes (Z.abs n)) 0) 128),
           (Z.leb_spec 128 (List.last (magnitude_bytes (Z.abs n)) 0)); try lia; reflexivity.
Qed.

Lemma encode_scriptnum_spec (n : Z) : _encode_scriptnum n = scriptnum_spec n.
Proof.
  destruct (Z.eq_dec n 0) as [-> | Hn]; [reflexivity|].
  rewrite encode_scriptnum_unfold by done.
  unfold scriptnum_spec. destruct (Z.eqb_spec n 0); [done|]. cbn zeta.
  pose proof (magnitude_bytes_last (Z.abs n) ltac:(lia)) as Hl.
  pose proof (magnitude_bytes_nonempty (Z.abs n) ltac:(lia)) as Hne.
  unfold top_bit_set.
  destruct (Z.leb_spec 128 (List.last (magnitude_bytes (Z.abs n)) 0)); [reflexivity|].
  destruct (n <? 0); [|reflexivity].
  unfold or_last. destruct (magnitude_bytes (Z.abs n)) eqn:E; [done|].
  rewrite lor_128 by lia. reflexivity.
Qed.

Lemma scriptnum_spec_is_byte (n : Z) : Forall is_byte (scriptnum_spec n).
Proof.
  unfold scriptnum_spec. destruct (Z.eqb_spec n 0); [constructor|]. cbn zeta.
  pose proof (magnitude_bytes_is_byte (Z.abs n) ltac:(lia)) as Hb.
  pose proof (magnitude_bytes_last (Z.abs n) ltac:(lia)) as Hl.
  unfold top_bit_set.
  destruct (Z.leb_spec 128 (List.last (magnitude_bytes (Z.abs n)) 0)).
  - apply Forall_app; split; [done|].
    repeat constructor; unfold is_byte; destruct (n <? 0); lia.
  - destruct (n <? 0); [|done].
    apply Forall_app; split; [by apply Forall_removelast|].
    repeat constructor; unfold is_byte; lia.
Qed.

Lemma scriptnum_spec_decode (n : Z) : decode_scriptnum (scriptnum_spec n) = n.
Proof.
  unfold scriptnum_spec. destruct (Z.eqb_spec n 0) as [-> | Hn]; [reflexivity|]. cbn zeta.
  set (mag := magnitude_bytes (Z.abs n)).
  pose proof (magnitude_bytes_value (Z.abs n) ltac:(lia)) as Hv. fold mag in Hv.
  pose proof (magnitude_bytes_last (Z.abs n) ltac:(lia)) as Hl. fold mag in Hl.
  pose proof (magnitude_bytes_nonempty (Z.abs n) ltac:(lia)) as Hne. fold mag in Hne.
  assert (Hdec : forall l x, decode_scriptnum (l ++ [x]) =
            if 128 <=? x then - (le_value l + x * 256 ^ len l - 128 * 256 ^ len l)
            else le_value l + x * 256 ^ len l).
  { intros l x. unfold decode_scriptnum, top_bit_set.
    rewrite last_snoc, le_value_app, len_app. change (len [x]) with 1.
    replace (len l + 1 - 1) with (len l) by lia.
    destruct l; reflexivity. }
  unfold top_bit_set at 1.
  destruct (Z.leb_spec 128 (List.last mag 0)) as [Htop | Htop].
  - rewrite Hdec. destruct (Z.ltb_spec n 0).
    + change (128 <=? 128) with true. cbv iota. lia.
    + change (128 <=? 0) with false. cbv iota. lia.
  - destruct (Z.ltb_spec n 0).
    + rewrite Hdec.
      destruct (Z.leb_spec 128 (List.last mag 0 + 128)); [|lia].
      rewrite (le_value_split mag Hne) in Hv.
      rewrite len_removelast by done. lia.
    + unfold decode_scriptnum, top_bit_set.
      destruct mag eqn:E; [done|]. rewrite <- E in *.
      destruct (Z.leb_spec 128 (List.last mag 0)); lia.
Qed.

Lemma scriptnum_spec_length (n : Z) :
  n <> 0 ->
  128 * 256 ^ (len (scriptnum_spec n) - 2) <= Z.abs n \/ len (scriptnum_spec n) = 1.
Proof.
  intros Hn. unfold scriptnum_spec. destruct (Z.eqb_spec n 0); [done|]. cbn zeta.
  set (mag := magnitude_bytes (Z.abs n)).
  pose proof (magnitude_bytes_value (Z.abs n) ltac:(lia)) as Hv. fold mag in Hv.
  pose proof (magnitude_bytes_last (Z.abs n) ltac:(lia)) as Hl. fold mag in Hl.
  pose proof (magnitude_bytes_nonempty (Z.abs n) ltac:(lia)) as Hne. fold mag in Hne.
  pose proof (magnitude_bytes_is_byte (Z.abs n) ltac:(lia)) as Hb. fold mag in Hb.
  pose proof (le_value_bounds _ (Forall_removelast mag Hb)) as Hi.
  rewrite (le_value_split mag Hne) in Hv.
  assert (1 <= len mag) by (unfold len; destruct mag; [done | simpl; lia]).
  assert (0 < 256 ^ (len mag - 1)) by (apply Z.pow_pos_nonneg; lia).
  unfold top_bit_set.
  destruct (Z.leb_spec 128 (List.last mag 0)) as [Htop | Htop].
  - left. rewrite len_app. change (len [_]) with 1.
    replace (len mag + 1 - 2) with (len mag - 1) by lia. nia.
  - assert (Hlen : len (if n <? 0 then removelast mag ++ [List.last mag 0 + 128] else mag)
                   = len mag).
    { destruct (n <? 0); [|done].
      rewrite len_app, len_removelast by done. change (len [_]) with 1. lia. }
    rewrite Hlen.
    destruct (Z.eq_dec (len mag) 1) as [|Hgt]; [by right | left].
    replace (len mag - 1) with (Z.succ (len mag - 2)) in * by lia.
    rewrite Z.pow_succ_r in * by lia. nia.
Qed.

(** C6.  [_encode_scriptnum n] is the script-number encoding the specification
    describes: empty for zero and otherwise the little-endian digits of [|n|],
    with the sign in the top bit of the last byte and an extra [0x00] / [0x80]
    byte exactly when the top bit of the magnitude is taken
    ([scriptnum_spec]).  It consists of bytes, denotes [n] again under the
    sign-magnitude reading, and no byte string denoting [n] is shorter. *)
Theorem encode_scriptnum_minimal_sign_magnitude (n : Z) :
  _encode_scriptnum n = scriptnum_spec n
  /\ (n = 0 -> _encode_scriptnum n = [])
  /\ Forall is_byte (_encode_scriptnum n)
  /\ decode_scriptnum (_encode_scriptnum n) = n
  /\ (forall bs, Forall is_byte bs -> decode_scriptnum bs = n ->
        (length (_encode_scriptnum n) <= length bs)%nat).
Proof.
  rewrite encode_scriptnum_spec.
  split; [reflexivity|]. split; [by intros ->|].
  split; [apply scriptnum_spec_is_byte|].
  split; [apply scriptnum_spec_decode|].
  intros bs Hb Hdec.
  destruct (Z.eq_dec n 0) as [-> | Hn]; [simpl; lia|].
  assert (Hne : bs <> []) by (intros ->; simpl in Hdec; lia).
  pose proof (decode_scriptnum_bound bs Hb Hne) as Hup. rewrite Hdec in Hup.
  assert (1 <= len bs) by (unfold len; destruct bs; [done | simpl; lia]).
  enough (len (scriptnum_spec n) <= len bs) by (unfold len in *; lia).
  destruct (scriptnum_spec_length n Hn) as [Hlow | ->]; [|lia].
  assert (Hpow : 256 ^ (len (scriptnum_spec n) - 2) < 256 ^ (len bs - 1)) by lia.
  apply Z.pow_lt_mono_r_iff in Hpow; lia.
Qed.

Example encode_scriptnum_test_locktime :
  _encode_scriptnum 1956528000 = [128; 63; 158; 116].
Proof. reflexivity. Qed.

Example encode_scriptnum_negative_extra_byte :
  _encode_scriptnum (-255) = [255; 128] /\ _encode_scriptnum (-127) = [255].
Proof. split; reflexivity. Qed.

(** ** Data pushes *)

Lemma length_le_fixed (width : nat) (v : Z) : length (le_fixed width v) = width.
Proof. revert v. induction width as [|w IH]; intros v; simpl; [done | by rewrite IH]. Qed.

Lemma le_value_le_fixed (width : nat) (v : Z) :
  0 <= v < 2 ^ (8 * Z.of_nat width) -> le_value (le_fixed width v) = v.
Proof.
  revert v. induction width as [|w IH]; intros v Hv.
  - simpl in *. lia.
  - cbn [le_fixed le_value]. rewrite land_255, shiftr_8.
    replace (8 * Z.of_nat (S w)) with (8 + 8 * Z.of_nat w) in Hv by lia.
    rewrite Z.pow_add_r in Hv by lia. change (2 ^ 8) with 256 in Hv.
    rewrite IH.
    + pose proof (Z.div_mod v 256). lia.
    + split; [apply Z.div_pos; lia|].
      apply Z.div_lt_upper_bound; lia.
Qed.

Lemma take_push_exact (d rest : list Z) : take_push (len d) (d ++ rest) = Some (d, rest).
Proof.
  unfold take_push. rewrite len_app.
  pose proof (len_nonneg d). pose proof (len_nonneg rest).
  destruct (Z.leb_spec 0 (len d)); [|lia].
  destruct (Z.leb_spec (len d) (len d + len rest)); [|lia].
  unfold len. rewrite Nat2Z.id, take_app_length, drop_app_length. reflexivity.
Qed.

(** What [_push_data] returns, by length class. *)
Lemma push_data_cases (data : list Z) :
  (len data <= 75 /\ _push_data data = Ret (len data :: data))
  \/ (75 < len data <= 255 /\ _push_data data = Ret (76 :: len data :: data))
  \/ (255 < len data <= 65535
      /\ _push_data data = Ret (77 :: le_fixed 2 (len data) ++ data))
  \/ (65535 < len data <= 4294967295
      /\ _push_data data = Ret (78 :: le_fixed 4 (len data) ++ data))
  \/ (4294967295 < len data /\ _push_data data = Raise StructError).
Proof.
  unfold _push_data. cbn zeta.
  destruct (Z.leb_spec (len data) 75); [left; done|].
  destruct (Z.leb_spec (len data) 255); [right; left; done|].
  destruct (Z.leb_spec (len data) 65535).
  { right; right; left. split; [lia|].
    unfold struct_pack_le. change (2 ^ (8 * Z.of_nat 2)) with 65536.
    destruct (Z.leb_spec 0 (len data)); [|lia].
    destruct (Z.ltb_spec (len data) 65536); [|lia]. reflexivity. }
  unfold struct_pack_le. change (2 ^ (8 * Z.of_nat 4)) with 4294967296.
  destruct (Z.leb_spec 0 (len data)); [|lia].
  destruct (Z.ltb_spec (len data) 4294967296).
  - right; right; right; left. split; [lia | reflexivity].
  - right; right; right; right. split; [lia | reflexivity].
Qed.

Lemma push_data_ok (data : list Z) :
  len data <= 4294967295 -> exists pushed, _push_data data = Ret pushed.
Proof.
  intros Hlen.
  destruct (push_data_cases data) as [[_ ->]|[[_ ->]|[[_ ->]|[[_ ->]|[? _]]]]]; eauto; lia.
Qed.

Lemma push_data_short (data : list Z) :
  len data <= 75 -> _push_data data = Ret (len data :: data).
Proof.
  intros Hlen.
  destruct (push_data_cases data) as [[_ ->]|[[? _]|[[? _]|[[? _]|[? _]]]]]; [done | lia..].
Qed.

(** A pushed string is read back as one push operation. *)
Lemma next_op_counted (width : nat) (opcode : Z) (d rest : list Z) :
  75 < opcode ->
  (opcode =? 76, opcode =? 77, opcode =? 78) =
    (Nat.eqb width 1, Nat.eqb width 2, Nat.eqb width 4) ->
  (width = 1 \/ width = 2 \/ width = 4)%nat ->
  0 <= len d < 2 ^ (8 * Z.of_nat width) ->
  next_op (opcode :: le_fixed width (len d) ++ d ++ rest) = Some (OpPush d, rest).
Proof.
  intros Hop Hsel Hw Hlen. unfold next_op.
  destruct (Z.leb_spec 0 opcode); [|lia].
  destruct (Z.leb_spec opcode 75); [lia|]. cbn [andb].
  assert (Hfit : (Z.of_nat width <=? len (le_fixed width (len d) ++ d ++ rest)) = true).
  { apply Z.leb_le. rewrite len_app. unfold len at 1. rewrite length_le_fixed.
    pose proof (len_nonneg (d ++ rest)). lia. }
  assert (Htake : take width (le_fixed width (len d) ++ d ++ rest) = le_fixed width (len d)).
  { rewrite <- (length_le_fixed width (len d)) at 1. apply take_app_length. }
  assert (Hdrop : drop width (le_fixed width (len d) ++ d ++ rest) = d ++ rest).
  { rewrite <- (length_le_fixed width (len d)) at 1. apply drop_app_length. }
  injection Hsel as H76 H77 H78.
  destruct Hw as [-> | [-> | ->]]; simpl in H76, H77, H78; rewrite ?H76, ?H77, ?H78;
    rewrite Hfit, Htake, Hdrop, le_value_le_fixed, take_push_exact by done; reflexivity.
Qed.

Lemma next_op_push_data (data pushed rest : list Z) :
  _push_data data = Ret pushed -> next_op (pushed ++ rest) = Some (OpPush data, rest).
Proof.
  intros Hpush. pose proof (len_nonneg data).
  destruct (push_data_cases data) as [[? E]|[[? E]|[[? E]|[[? E]|[? E]]]]];
    rewrite E in Hpush; [..|discriminate];
    match type of Hpush with Ret ?x = _ => assert (pushed = x) as -> by congruence end;
    clear Hpush E.
  - cbn [app next_op].
    destruct (Z.leb_spec 0 (len data)); [|lia].
    destruct (Z.leb_spec (len data) 75); [|lia]. cbn [andb].
    rewrite take_push_exact. reflexivity.
  - replace (76 :: len data :: data) with (76 :: le_fixed 1 (len data) ++ data).
    + rewrite <- app_comm_cons, <- app_assoc.
      apply next_op_counted; [lia | reflexivity | auto | simpl; lia].
    + simpl. rewrite land_255, Z.mod_small by lia. reflexivity.
  - rewrite <- app_comm_cons, <- app_assoc.
    apply next_op_counted; [lia | reflexivity | auto | simpl; lia].
  - rewrite <- app_comm_cons, <- app_assoc.
    apply next_op_counted; [lia | reflexivity | auto | simpl; lia].
Qed.

Lemma next_op_plain (code : Z) (rest : list Z) :
  78 < code -> next_op (code :: rest) = Some (OpCode code, rest).
Proof.
  intros Hc. unfold next_op.
  destruct (Z.leb_spec code 75); [lia|]. rewrite andb_false_r.
  destruct (Z.eqb_spec code 76); [lia|].
  destruct (Z.eqb_spec code 77); [lia|].
  destruct (Z.eqb_spec code 78); [lia|]. reflexivity.
Qed.

Lemma script_ops_fuel_mono (fuel fuel' : nat) (script : list Z) (ops : list script_op) :
  script_ops_fuel fuel script = Some ops -> (fuel <= fuel')%nat ->
  script_ops_fuel fuel' script = Some ops.
Proof.
  revert fuel' script ops. induction fuel as [|fuel IH]; intros fuel' script ops Hops Hle.
  - destruct script; simpl in Hops; [|done]. destruct fuel'; exact Hops.
  - destruct fuel' as [|fuel']; [lia|].
    destruct script as [|b script]; [exact Hops|].
    cbn [script_ops_fuel] in *.
    destruct (next_op (b :: script)) as [[op rest]|]; [|done]. simpl in *.
    destruct (script_ops_fuel fuel rest) as [ops'|] eqn:E; [|done].
    rewrite (IH fuel' rest ops' E) by lia. exact Hops.
Qed.

Lemma script_ops_fuel_step (fuel : nat) (script rest : list Z) (op : script_op)
    (ops : list script_op) :
  script <> [] -> next_op script = Some (op, rest) ->
  script_ops_fuel fuel rest = Some ops ->
  script_ops_fuel (S fuel) script = Some (op :: ops).
Proof.
  intros Hne Hnext Hrest. destruct script; [done|].
  cbn [script_ops_fuel]. rewrite Hnext. simpl. rewrite Hrest. reflexivity.
Qed.

(** ** [mk_freeze_script] *)

Lemma mk_freeze_script_unfold (pubkey_hex : string) (pubkey_bytes : list Z) (locktime : Z) :
  bytes_fromhex pubkey_hex = Ret pubkey_bytes ->
  mk_freeze_script pubkey_hex locktime =
    if negb (len pubkey_bytes =? 33)
    then Raise (invalid_pubkey_length (len pubkey_bytes))
    else
      pushed_locktime ← _push_data (_encode_scriptnum locktime);
      pushed_pubkey ← _push_data pubkey_bytes;
      Ret (pushed_locktime ++ [op_checklocktimeverify] ++ [op_drop]
             ++ pushed_pubkey ++ [op_checksig]).
Proof. intros Hhex. unfold mk_freeze_script. rewrite Hhex. reflexivity. Qed.

Lemma byte_count_app (b : Z) (l1 l2 : list Z) :
  byte_count b (l1 ++ l2) = (byte_count b l1 + byte_count b l2)%nat.
Proof. apply count_occ_app. Qed.

(** C5.  When the hexadecimal key decodes to a byte string whose length is not
    33, [mk_freeze_script] raises [ValueError] with the message
    ["Invalid pubkey length: <actual>, expected 33"]; when it decodes to 33
    bytes, no [ValueError] is raised. *)
Theorem mk_freeze_script_pubkey_length
    (pubkey_hex : string) (pubkey_bytes : list Z) (locktime : Z) :
  bytes_fromhex pubkey_hex = Ret pubkey_bytes ->
  (len pubkey_bytes <> 33 ->
     mk_freeze_script pubkey_hex locktime =
       Raise (ValueError ("Invalid pubkey length: " +:+ pretty (len pubkey_bytes)
                            +:+ ", expected 33")))
  /\ (len pubkey_bytes = 33 ->
        forall msg, mk_freeze_script pubkey_hex locktime <> Raise (ValueError msg)).
Proof.
  intros Hhex. rewrite (mk_freeze_script_unfold _ _ _ Hhex). split.
  - intros Hlen. destruct (Z.eqb_spec (len pubkey_bytes) 33); [done | reflexivity].
  - intros Hlen msg. rewrite Hlen. cbn [Z.eqb Pos.eqb negb].
    rewrite (push_data_short pubkey_bytes) by lia.
    destruct (push_data_cases (_encode_scriptnum locktime))
      as [[_ ->]|[[_ ->]|[[_ ->]|[[_ ->]|[_ ->]]]]]; discriminate.
Qed.

Lemma mk_freeze_script_pubkey_length_witness :
  mk_freeze_script "abcd" 1956528000 =
    Raise (ValueError "Invalid pubkey length: 2, expected 33")
  /\ (forall msg, mk_freeze_script test_pubkey_hex 1956528000 <> Raise (ValueError msg)).
Proof.
  split.
  - apply (proj1 (mk_freeze_script_pubkey_length "abcd" [171; 205] 1956528000 eq_refl)).
    vm_compute. discriminate.
  - refine (proj2 (mk_freeze_script_pubkey_length test_pubkey_hex _ 1956528000 _) _);
      [vm_compute; reflexivity | vm_compute; reflexivity].
Defined.

(** C4 (as the code has it).  For a key that decodes to 33 bytes and a locktime
    whose encoding fits a four-byte length, [mk_freeze_script] returns
    [push(locktime) ++ [0xB1; 0x75] ++ push(key) ++ [0xAC]].  Read as a script
    it is five operations: the locktime push, check-locktime-verify, drop,
    the key push and checksig, so each of the three opcodes occurs exactly
    once as an operation.  As raw byte values each occurs once plus the number
    of times it occurs inside the pushed locktime and the key. *)
Theorem mk_freeze_script_opcodes_once
    (pubkey_hex : string) (pubkey_bytes : list Z) (locktime : Z) :
  bytes_fromhex pubkey_hex = Ret pubkey_bytes ->
  len pubkey_bytes = 33 ->
  len (_encode_scriptnum locktime) <= 4294967295 ->
  exists pushed_locktime script ops,
    _push_data (_encode_scriptnum locktime) = Ret pushed_locktime
    /\ mk_freeze_script pubkey_hex locktime = Ret script
    /\ script = pushed_locktime ++ [177; 117] ++ (33 :: pubkey_bytes) ++ [172]
    /\ script_ops script = Some ops
    /\ ops = [OpPush (_encode_scriptnum locktime); OpCode 177; OpCode 117;
              OpPush pubkey_bytes; OpCode 172]
    /\ (forall code, code = 177 \/ code = 117 \/ code = 172 ->
          count_opcode code ops = 1%nat
          /\ byte_count code script =
               (1 + byte_count code pushed_locktime + byte_count code pubkey_bytes)%nat).
Proof.
  intros Hhex Hlen Hfit.
  destruct (push_data_ok _ Hfit) as [pushed_locktime Hpl].
  pose proof (push_data_short pubkey_bytes ltac:(lia)) as Hpk. rewrite Hlen in Hpk.
  exists pushed_locktime. eexists. eexists.
  split; [exact Hpl|].
  split.
  { rewrite (mk_freeze_script_unfold _ _ _ Hhex), Hlen, Hpl, Hpk. reflexivity. }
  split; [reflexivity|].
  split; [|split; [reflexivity|]].
  - unfold script_ops.
    apply script_ops_fuel_mono with (fuel := 5%nat).
    + eapply script_ops_fuel_step;
        [destruct pushed_locktime; done | by apply next_op_push_data|].
      eapply script_ops_fuel_step; [done | apply next_op_plain; lia|].
      eapply script_ops_fuel_step; [done | apply next_op_plain; lia|].
      eapply script_ops_fuel_step; [done | |].
      { apply (next_op_push_data pubkey_bytes (33 :: pubkey_bytes) [172]). exact Hpk. }
      reflexivity.
    + rewrite length_app. simpl. rewrite length_app. simpl. unfold len in Hlen. lia.
  - intros code Hcode. split.
    + destruct Hcode as [-> | [-> | ->]]; reflexivity.
    + rewrite byte_count_app.
      change ([177; 117] ++ (33 :: pubkey_bytes) ++ [172])
        with ([177; 117; 33] ++ pubkey_bytes ++ [172]).
      rewrite !byte_count_app.
      unfold byte_count. destruct Hcode as [-> | [-> | ->]]; simpl; lia.
Qed.

Lemma mk_freeze_script_opcodes_once_witness :
  exists pushed_locktime script ops,
    _push_data (_encode_scriptnum 1956528000) = Ret pushed_locktime
    /\ mk_freeze_script test_pubkey_hex 1956528000 = Ret script
    /\ script = pushed_locktime ++ [177; 117]
                  ++ (33 :: test_pubkey_bytes)
                  ++ [172]
    /\ script_ops script = Some ops
    /\ ops = [OpPush (_encode_scriptnum 1956528000); OpCode 177; OpCode 117;
              OpPush test_pubkey_bytes;
              OpCode 172]
    /\ (forall code, code = 177 \/ code = 117 \/ code = 172 ->
          count_opcode code ops = 1%nat
          /\ byte_count code script =
               (1 + byte_count code pushed_locktime
                + byte_count code test_pubkey_bytes)%nat).
Proof.
  apply (mk_freeze_script_opcodes_once test_pubkey_hex _ 1956528000).
  - vm_compute. reflexivity.
  - vm_compute. reflexivity.
  - vm_compute. discriminate.
Defined.

(** C4 as stated fails on raw bytes: with the test key and the locktime
    [0x75000000] (a timestamp in 2032) the script holds the drop byte [0x75]
    twice, once as the opcode and once inside the pushed locktime. *)
Lemma mk_freeze_script_drop_byte_twice :
  exists script,
    mk_freeze_script test_pubkey_hex 1962934272 = Ret script
    /\ bytes_fromhex test_pubkey_hex
         = Ret test_pubkey_bytes
    /\ script = [4; 0; 0; 0; 117; 177; 117; 33] ++ test_pubkey_bytes ++ [172]
    /\ byte_count 117 script = 2%nat.
Proof. eexists. repeat split; vm_compute; reflexivity. Qed.

(** ** The mempool client *)

Section ClientFacts.

Import mempool_api.

Context {World : Type}.
Variable client_get : string -> World -> outcome body * World.
Variable base_url : string.

Local Abbreviation get_transaction := (get_transaction client_get base_url).
Local Abbreviation get_block_height := (get_block_height client_get base_url).
Local Abbreviation get_utxo_confirmations := (get_utxo_confirmations client_get base_url).
Local Abbreviation get_utxo_value := (get_utxo_value client_get base_url).

(** [get_utxo_confirmations] in terms of the two requests it makes. *)
Lemma get_utxo_confirmations_unfold (txid : string) (vout : Z) (w : World) :
  get_utxo_confirmations txid vout w =
    match get_transaction txid w with
    | (Raise e, w1) => (if is_MempoolAPIError e then Ret None else Raise e, w1)
    | (Ret tx, w1) =>
        match confirmed (status tx), block_height (status tx) with
        | true, Some h =>
            match get_block_height w1 with
            | (Ret tip, w2) => (Ret (Some (Z.max 0 (tip - h + 1))), w2)
            | (Raise e, w2) => (if is_MempoolAPIError e then Ret None else Raise e, w2)
            end
        | _, _ => (Ret None, w1)
        end
    end.
Proof.
  unfold mempool_api.get_utxo_confirmations, try_except, io_bind.
  destruct (get_transaction txid w) as [[tx | e] w1]; [|by destruct (is_MempoolAPIError e)].
  destruct (confirmed (status tx)), (block_height (status tx)) as [h|]; try reflexivity.
  simpl. unfold io_bind.
  destruct (get_block_height w1) as [[tip | e] w2]; [reflexivity|].
  by destruct (is_MempoolAPIError e).
Qed.

Lemma get_utxo_value_unfold (txid : string) (vout_index : Z) (w : World) :
  get_utxo_value txid vout_index w =
    match get_transaction txid w with
    | (Raise e, w1) => (if is_MempoolAPIError e then Ret None else Raise e, w1)
    | (Ret tx, w1) =>
        if len (vout tx) <=? vout_index then (Ret None, w1)
        else match getitem (vout tx) vout_index with
             | Ret output => (Ret (Some (value output)), w1)
             | Raise e => (if is_MempoolAPIError e then Ret None else Raise e, w1)
             end
    end.
Proof.
  unfold mempool_api.get_utxo_value, try_except, io_bind.
  destruct (get_transaction txid w) as [[tx | e] w1]; [|by destruct (is_MempoolAPIError e)].
  destruct (len (vout tx) <=? vout_index); [reflexivity|].
  unfold io_lift. destruct (getitem (vout tx) vout_index) as [output | e]; [reflexivity|].
  by destruct (is_MempoolAPIError e).
Qed.

(** C10.  Whatever the outside world answers, a value returned by
    [get_utxo_confirmations] is [None] or a non-negative integer; when the
    transaction is confirmed at height [h] and the tip is [tip] it is
    [max(0, tip - h + 1)], hence [0] when [h] exceeds the tip.  The call
    raises only when one of its two requests raised something other than
    [MempoolAPIError].  Neither the outcome nor the state left behind depends
    on [vout]. *)
Theorem get_utxo_confirmations_non_negative (txid : string) (vout : Z) (w : World) :
  match fst (get_utxo_confirmations txid vout w) with
  | Ret None => True
  | Ret (Some n) => 0 <= n
  | Raise e => is_MempoolAPIError e = false
               /\ (fst (get_transaction txid w) = Raise e
                   \/ exists tx w1, get_transaction txid w = (Ret tx, w1)
                                    /\ fst (get_block_height w1) = Raise e)
  end
  /\ (forall tx w1 h tip w2,
        get_transaction txid w = (Ret tx, w1) ->
        confirmed (status tx) = true -> block_height (status tx) = Some h ->
        get_block_height w1 = (Ret tip, w2) ->
        get_utxo_confirmations txid vout w = (Ret (Some (Z.max 0 (tip - h + 1))), w2)
        /\ (tip < h -> get_utxo_confirmations txid vout w = (Ret (Some 0), w2)))
  /\ (forall vout', get_utxo_confirmations txid vout' w = get_utxo_confirmations txid vout w).
Proof.
  split; [|split].
  - rewrite get_utxo_confirmations_unfold.
    destruct (get_transaction txid w) as [[tx | e] w1] eqn:Etx.
    + destruct (confirmed (status tx)), (block_height (status tx)) as [h|]; simpl; try done.
      destruct (get_block_height w1) as [[tip | e] w2] eqn:Etip; simpl; [lia|].
      destruct (is_MempoolAPIError e) eqn:Ee; [done|].
      split; [done|]. right. exists tx, w1. by rewrite Etip.
    + simpl. destruct (is_MempoolAPIError e) eqn:Ee; [done|]. auto.
  - intros tx w1 h tip w2 Htx Hc Hh Htip.
    rewrite get_utxo_confirmations_unfold, Htx, Hc, Hh, Htip.
    split; [reflexivity|]. intros Hlt. by rewrite Z.max_l by lia.
  - intros vout'. by rewrite !get_utxo_confirmations_unfold.
Qed.

End ClientFacts.

(** ** The bond validator *)

Section ValidatorFacts.

Import models mempool_api bond_validator.

Context {World : Type}.
Variable client_get : string -> World -> outcome body * World.
Variable base_url : string.

Local Abbreviation get_utxo_confirmations := (get_utxo_confirmations client_get base_url).
Local Abbreviation get_utxo_value := (get_utxo_value client_get base_url).
Local Abbreviation validate_bond := (validate_bond client_get base_url).

Lemma validate_bond_unfold (bond : FidelityBond) (w : World) :
  validate_bond bond w =
    match get_utxo_confirmations (utxo_txid bond) (utxo_vout bond) w with
    | (Raise _, w1) | (Ret None, w1) => (Ret false, w1)
    | (Ret (Some c), w1) =>
        if c <? 1 then (Ret false, w1)
        else match get_utxo_value (utxo_txid bond) (utxo_vout bond) w1 with
             | (Raise _, w2) | (Ret None, w2) => (Ret false, w2)
             | (Ret (Some v), w2) => (Ret (v =? amount bond), w2)
             end
    end.
Proof.
  unfold bond_validator.validate_bond, try_except, io_bind.
  destruct (get_utxo_confirmations _ _ w) as [[[c|] | e] w1]; try reflexivity.
  destruct (c <? 1); [reflexivity|].
  destruct (get_utxo_value _ _ w1) as [[[v|] | e] w2]; try reflexivity.
  by destruct (v =? amount bond).
Qed.

(** C7.  [validate_bond] always returns a boolean.  It is [True] exactly when
    the confirmation lookup returned a count of at least 1 and the value
    lookup that follows returned the bond's claimed amount; in particular it
    is [False] when either lookup returns [None] or raises, when the count is
    below 1, and when the value differs from the amount. *)
Theorem validate_bond_total (bond : FidelityBond) (w : World) :
  exists (b : bool) (w' : World),
    validate_bond bond w = (Ret b, w')
    /\ (b = true <->
          exists c w1 w2,
            get_utxo_confirmations (utxo_txid bond) (utxo_vout bond) w = (Ret (Some c), w1)
            /\ 1 <= c
            /\ get_utxo_value (utxo_txid bond) (utxo_vout bond) w1
                 = (Ret (Some (amount bond)), w2))
    /\ (forall r w1,
          get_utxo_confirmations (utxo_txid bond) (utxo_vout bond) w = (r, w1) ->
          match r with
          | Raise _ | Ret None => b = false
          | Ret (Some c) =>
              (c < 1 -> b = false)
              /\ (1 <= c ->
                  forall r' w2,
                    get_utxo_value (utxo_txid bond) (utxo_vout bond) w1 = (r', w2) ->
                    match r' with
                    | Raise _ | Ret None => b = false
                    | Ret (Some v) => (v <> amount bond -> b = false)
                                      /\ (v = amount bond -> b = true)
                    end)
          end).
Proof.
  rewrite validate_bond_unfold.
  destruct (get_utxo_confirmations _ _ w) as [[[c|] | e] w1] eqn:Ec.
  - destruct (Z.ltb_spec c 1) as [Hc | Hc].
    + exists false, w1. split; [reflexivity|]. split.
      * split; [done|]. intros (c' & w1' & w2 & [= <- <-] & ? & _). lia.
      * intros r w1' [= <- <-]. split; [done | lia].
    + destruct (get_utxo_value _ _ w1) as [[[v|] | e] w2] eqn:Ev.
      * exists (v =? amount bond), w2. split; [reflexivity|]. split.
        -- split.
           ++ intros Hb%Z.eqb_eq. exists c, w1, w2. by rewrite Hb in *.
           ++ intros (c' & w1' & w2' & [= <- <-] & _ & Hv).
              rewrite Ev in Hv. injection Hv as -> _. apply Z.eqb_refl.
        -- intros r w1' [= <- <-]. split; [lia|].
           intros _ r' w2' Hv. rewrite Ev in Hv. injection Hv as <- <-.
           split; [by intros ?%Z.eqb_neq | by intros ?%Z.eqb_eq].
      * exists false, w2. split; [reflexivity|]. split.
        -- split; [done|]. intros (c' & w1' & w2' & [= <- <-] & _ & Hv).
           rewrite Ev in Hv. done.
        -- intros r w1' [= <- <-]. split; [done|].
           intros _ r' w2' Hv. rewrite Ev in Hv. by injection Hv as <- <-.
      * exists false, w2. split; [reflexivity|]. split.
        -- split; [done|]. intros (c' & w1' & w2' & [= <- <-] & _ & Hv).
           rewrite Ev in Hv. done.
        -- intros r w1' [= <- <-]. split; [done|].
           intros _ r' w2' Hv. rewrite Ev in Hv. by injection Hv as <- <-.
  - exists false, w1. split; [reflexivity|]. split.
    + split; [done|]. by intros (c' & w1' & w2 & ? & _).
    + by intros r w1' [= <- <-].
  - exists false, w1. split; [reflexivity|]. split.
    + split; [done|]. by intros (c' & w1' & w2 & ? & _).
    + by intros r w1' [= <- <-].
Qed.

End ValidatorFacts.

(** ** Cache keys *)

Section Keys.

Import models aggregator.

Lemma append_cons (c : ascii) (s t : string) : String c s +:+ t = String c (s +:+ t).
Proof. reflexivity. Qed.

Lemma append_empty (t : string) : "" +:+ t = t.
Proof. reflexivity. Qed.

Lemma occurs_append (c : ascii) (s t : string) :
  occurs c (s +:+ t) <-> occurs c s \/ occurs c t.
Proof.
  induction s as [|c' s IH].
  - rewrite append_empty. simpl. tauto.
  - rewrite append_cons. simpl. rewrite IH. tauto.
Qed.

Lemma colon_split_inj (s1 t1 s2 t2 : string) :
  ~ occurs ":" t1 -> ~ occurs ":" t2 ->
  s1 +:+ String ":" t1 = s2 +:+ String ":" t2 -> s1 = s2 /\ t1 = t2.
Proof.
  intros H1 H2. revert s2.
  induction s1 as [|c1 s1 IH]; intros [|c2 s2] Heq;
    rewrite ?append_empty, ?append_cons in Heq.
  - by injection Heq as ->.
  - injection Heq as <- ->. exfalso. apply H1, occurs_append. right. by left.
  - injection Heq as -> <-. exfalso. apply H2, occurs_append. right. by left.
  - injection Heq as -> Heq. destruct (IH _ Heq) as [-> ->]. done.
Qed.

Lemma pretty_N_char_not_colon (x : N) : pretty_N_char x <> ":"%char.
Proof. unfold pretty_N_char. by repeat case_match. Qed.

Lemma pretty_N_go_no_colon (x : N) (s : string) :
  ~ occurs ":" s -> ~ occurs ":" (pretty_N_go x s).
Proof.
  revert s. induction (N.lt_wf_0 x) as [x _ IH]; intros s Hs.
  assert (x = 0 \/ 0 < x)%N as [-> | Hx] by lia.
  - by rewrite pretty_N_go_0.
  - rewrite pretty_N_go_step by done. apply IH.
    + by apply N.div_lt.
    + simpl. intros [Hc | Hc]; [|done].
      by apply (pretty_N_char_not_colon (x `mod` 10)%N).
Qed.

Lemma pretty_N_no_colon (x : N) : ~ occurs ":" (pretty x).
Proof.
  unfold pretty, pretty_N. case_decide.
  - simpl. intros [? | []]. done.
  - apply pretty_N_go_no_colon. simpl. tauto.
Qed.

Lemma pretty_Z_no_colon (z : Z) : ~ occurs ":" (pretty z).
Proof.
  destruct z as [|p|p]; unfold pretty, pretty_Z.
  - simpl. intros [? | []]. done.
  - apply pretty_N_no_colon.
  - simpl. intros [? | Hc]; [done|]. by apply (pretty_N_no_colon (N.pos p)).
Qed.

(** Two bonds have the same cache key exactly when they refer to the same
    transaction id and output index. *)
Lemma cache_key_inj (b1 b2 : FidelityBond) :
  cache_key b1 = cache_key b2 <-> utxo_ref b1 = utxo_ref b2.
Proof.
  unfold cache_key, utxo_ref. split.
  - intros Heq.
    change (utxo_txid b1 +:+ String ":" (pretty (utxo_vout b1))
            = utxo_txid b2 +:+ String ":" (pretty (utxo_vout b2))) in Heq.
    apply colon_split_inj in Heq as [-> Hv]; [|apply pretty_Z_no_colon..].
    by apply (inj pretty) in Hv as ->.
  - by intros [= -> ->].
Qed.

End Keys.

(** ** Merging and deduplication *)

Section Merge.

Import models mempool_api aggregator.

Lemma collect_fold (clients : list (string * listener)) (ob : OrderBook) :
  fidelity_bonds (fold_left collect clients ob) = fidelity_bonds ob ++ merged_bonds clients
  /\ offers (fold_left collect clients ob) = offers ob ++ merged_offers clients
  /\ timestamp (fold_left collect clients ob) = timestamp ob.
Proof.
  revert ob. induction clients as [|[node_id client] clients IH]; intros ob.
  - unfold merged_bonds, merged_offers. simpl. by rewrite !app_nil_r.
  - cbn [fold_left]. destruct (IH (collect ob (node_id, client))) as (Hb & Ho & Ht).
    rewrite Hb, Ho, Ht. unfold merged_bonds, merged_offers. cbn.
    rewrite !map_map, <- !app_assoc. done.
Qed.

Lemma keep_first_fold (bonds : list FidelityBond) (d : list (string * FidelityBond))
    (seen : list (string * Z)) :
  d.*1 = map cache_key d.*2 ->
  (forall r, r ∈ seen <-> r ∈ map utxo_ref d.*2) ->
  dict_values (fold_left keep_first bonds d) = d.*2 ++ first_seen seen bonds.
Proof.
  revert d seen. induction bonds as [|b bonds IH]; intros d seen Hkeys Hseen.
  - simpl. by rewrite app_nil_r.
  - cbn [fold_left first_seen]. unfold keep_first at 2, dict_contains.
    assert (Hiff : cache_key b ∈ d.*1 <-> utxo_ref b ∈ seen).
    { rewrite Hkeys, Hseen. split.
      - intros (b' & Hk & Hin)%list_elem_of_fmap.
        apply list_elem_of_fmap. exists b'. split; [by apply cache_key_inj | done].
      - intros (b' & Hk & Hin)%list_elem_of_fmap.
        apply list_elem_of_fmap. exists b'. split; [by apply cache_key_inj | done]. }
    destruct (decide (utxo_ref b ∈ seen)) as [Hin | Hnin].
    + rewrite (bool_decide_eq_true_2 _ Hin).
      rewrite bool_decide_eq_true_2 by (by apply Hiff).
      by apply IH.
    + rewrite (bool_decide_eq_false_2 _ Hnin).
      rewrite bool_decide_eq_false_2 by (by rewrite Hiff).
      rewrite (IH (d ++ [(cache_key b, b)]) (utxo_ref b :: seen)).
      * rewrite fmap_app, <- app_assoc. reflexivity.
      * rewrite ?fmap_app, ?map_app, Hkeys. reflexivity.
      * intros r. rewrite ?fmap_app, ?map_app, elem_of_cons, elem_of_app, Hseen.
        simpl. rewrite list_elem_of_singleton. tauto.
Qed.

Lemma first_seen_elem (seen : list (string * Z)) (bonds : list FidelityBond)
    (b : FidelityBond) :
  b ∈ first_seen seen bonds -> b ∈ bonds /\ (utxo_ref b ∉ seen).
Proof.
  revert seen. induction bonds as [|b0 bonds IH]; intros seen; simpl.
  - by intros ?%elem_of_nil.
  - case_bool_decide as Hseen.
    + intros [? ?]%IH. split; [by right | done].
    + intros [-> | [? Hn]%IH]%elem_of_cons.
      * split; [by left | done].
      * split; [by right|]. intros ?. apply Hn. by right.
Qed.

Lemma first_seen_NoDup (seen : list (string * Z)) (bonds : list FidelityBond) :
  NoDup (map utxo_ref (first_seen seen bonds)).
Proof.
  revert seen. induction bonds as [|b0 bonds IH]; intros seen; simpl.
  - constructor.
  - case_bool_decide as Hseen; [apply IH|].
    cbn [map]. constructor; [|apply IH].
    intros (b' & Href & [_ Hn]%first_seen_elem)%list_elem_of_fmap.
    apply Hn. rewrite <- Href. by left.
Qed.

Lemma first_seen_sublist (seen : list (string * Z)) (bonds : list FidelityBond) :
  sublist (first_seen seen bonds) bonds.
Proof.
  revert seen. induction bonds as [|b0 bonds IH]; intros seen; simpl.
  - constructor.
  - case_bool_decide; [by apply sublist_cons | by apply sublist_skip].
Qed.

(** Every UTXO that occurs in the input survives. *)
Lemma first_seen_covers (seen : list (string * Z)) (bonds : list FidelityBond)
    (b : FidelityBond) :
  b ∈ bonds -> utxo_ref b ∉ seen ->
  exists b', b' ∈ first_seen seen bonds /\ utxo_ref b' = utxo_ref b.
Proof.
  revert seen. induction bonds as [|b0 bonds IH]; intros seen Hin Hseen.
  - by apply elem_of_nil in Hin.
  - simpl. case_bool_decide as H0.
    + apply elem_of_cons in Hin as [-> | Hin]; [done|]. by apply IH.
    + destruct (decide (utxo_ref b0 = utxo_ref b)) as [Heq | Hne].
      * exists b0. split; [by left | done].
      * apply elem_of_cons in Hin as [-> | Hin]; [done|].
        destruct (IH (utxo_ref b0 :: seen) Hin) as (b' & Hb' & Href).
        { intros [? | ?]%elem_of_cons; [by apply Hne | done]. }
        exists b'. split; [by right | done].
Qed.

(** The kept bonds are exactly the first occurrences. *)
Lemma first_seen_first (seen : list (string * Z)) (bonds : list FidelityBond)
    (b : FidelityBond) :
  b ∈ first_seen seen bonds <->
  (utxo_ref b ∉ seen)
  /\ exists i : nat, bonds !! i = Some b
       /\ forall (j : nat) b0, (j < i)%nat -> bonds !! j = Some b0 -> utxo_ref b0 <> utxo_ref b.
Proof.
  revert seen. induction bonds as [|b0 bonds IH]; intros seen; simpl.
  - split; [by intros ?%elem_of_nil | by intros (_ & i & ? & _)].
  - case_bool_decide as H0.
    + rewrite IH. split.
      * intros (Hs & i & Hi & Hfirst). split; [done|].
        exists (S i). split; [done|].
        intros [|j] b1 Hj Hb1; simpl in Hb1.
        -- injection Hb1 as <-. by intros Heq; rewrite Heq in H0.
        -- apply (Hfirst j); [lia | done].
      * intros (Hs & [|i] & Hi & Hfirst); simpl in Hi.
        -- injection Hi as <-. done.
        -- split; [done|]. exists i. split; [done|].
           intros j b1 Hj Hb1. apply (Hfirst (S j)); [lia | done].
    + rewrite elem_of_cons, IH. split.
      * intros [-> | (Hs & i & Hi & Hfirst)].
        -- split; [done|]. exists 0%nat. split; [done|]. intros j b1 Hj. lia.
        -- split; [by intros ?; apply Hs; right|].
           exists (S i). split; [done|].
           intros [|j] b1 Hj Hb1; simpl in Hb1.
           ++ injection Hb1 as <-. intros Heq. apply Hs. rewrite <- Heq. by left.
           ++ apply (Hfirst j); [lia | done].
      * intros (Hs & [|i] & Hi & Hfirst); simpl in Hi.
        -- injection Hi as <-. by left.
        -- right. split.
           ++ intros [Heq | ?]%elem_of_cons; [|done].
              by apply (Hfirst 0%nat b0); [lia | |].
           ++ exists i. split; [done|].
              intros j b1 Hj Hb1. apply (Hfirst (S j)); [lia | done].
Qed.

End Merge.

(** ** Valuation leaves the identity of a bond alone *)

Section Valuation.

Import models mempool_api aggregator.

Variable calculate_timelocked_fidelity_bond_value : Z -> Z -> Z -> Z -> outcome Z.
Variable tx_lookup : nat -> string -> outcome Transaction.

Local Abbreviation single :=
  (_calculate_bond_value_single calculate_timelocked_fidelity_bond_value).
Local Abbreviation bond_values :=
  (_calculate_bond_values calculate_timelocked_fidelity_bond_value tx_lookup).

Lemma calculate_single_cases (bond : FidelityBond) (current_time : Z)
    (reply : outcome Transaction) :
  single bond current_time reply = bond
  \/ exists v a t, single bond current_time reply = set_bond_valuation (Some v) a (Some t) bond.
Proof.
  unfold aggregator._calculate_bond_value_single.
  destruct (bond_value bond); [by left|].
  destruct reply as [tx | e]; [|by left]. simpl.
  destruct (negb (confirmed (status tx))); [by left|].
  destruct (len (vout tx) <=? utxo_vout bond); [by left|].
  destruct (getitem (vout tx) (utxo_vout bond)) as [utxo | e]; [|by left]. simpl.
  destruct (calculate_timelocked_fidelity_bond_value _ _ _ _) as [v | e]; [|by left].
  right. simpl. eauto.
Qed.

Lemma calculate_single_identity (bond : FidelityBond) (current_time : Z)
    (reply : outcome Transaction) :
  bond_identity (single bond current_time reply) = bond_identity bond.
Proof.
  destruct (calculate_single_cases bond current_time reply) as [-> | (v & a & t & ->)];
    reflexivity.
Qed.

Lemma load_cached_identity (cache : gmap string FidelityBond) (bond : FidelityBond) :
  bond_identity (load_cached cache bond) = bond_identity bond.
Proof. unfold load_cached. by destruct (cache !! cache_key bond). Qed.

Lemma calculate_bond_values_eq (orderbook : OrderBook) (current_time : Z) :
  bond_values orderbook current_time =
    Ret (set_fidelity_bonds
           (imap (fun i bond => single bond current_time (tx_lookup i (utxo_txid bond)))
                 (fidelity_bonds orderbook))
           orderbook).
Proof. reflexivity. Qed.

Lemma imap_identity (current_time : Z) (bonds : list FidelityBond) :
  map bond_identity
      (imap (fun i bond => single bond current_time (tx_lookup i (utxo_txid bond))) bonds)
  = map bond_identity bonds.
Proof.
  generalize tx_lookup as lookup.
  induction bonds as [|b bonds IH]; intros lookup; [reflexivity|].
  cbn [imap map]. rewrite calculate_single_identity. f_equal.
  apply (IH (fun i => lookup (S i))).
Qed.

End Valuation.

Section Dedup.

Import models mempool_api aggregator.

Variable calculate_timelocked_fidelity_bond_value : Z -> Z -> Z -> Z -> outcome Z.
Variable tx_lookup : nat -> string -> outcome Transaction.

Local Abbreviation get_live_orderbook :=
  (get_live_orderbook calculate_timelocked_fidelity_bond_value tx_lookup).

Lemma utxo_ref_of_identity (bonds : list FidelityBond) :
  map utxo_ref bonds = map ref_of_identity (map bond_identity bonds).
Proof. rewrite map_map. reflexivity. Qed.

Lemma map_eq_elem {A B : Type} (f : A -> B) (l1 l2 : list A) (x : A) :
  map f l1 = map f l2 -> x ∈ l2 -> exists y, y ∈ l1 /\ f y = f x.
Proof.
  intros Hmap Hx.
  assert (Hfx : f x ∈ map f l1) by (rewrite Hmap; by apply list_elem_of_fmap_2).
  apply list_elem_of_fmap in Hfx as (y & Hy & Hin). eauto.
Qed.

(** The bonds of the live order book, before any valuation. *)
Lemma get_live_orderbook_unfold (clients : list (string * listener))
    (cache : gmap string FidelityBond) (calculate_bonds : bool) (now : Z) :
  let kept := first_seen [] (merged_bonds clients) in
  let valued :=
    imap (fun i bond =>
            _calculate_bond_value_single calculate_timelocked_fidelity_bond_value
              bond now (tx_lookup i (utxo_txid bond)))
         (map (load_cached cache) kept) in
  get_live_orderbook clients cache calculate_bonds now =
    if calculate_bonds
    then Ret (mkOrderBook (map (attach_value valued) (merged_offers clients)) valued
                (directory_nodes (fold_left collect clients (new_orderbook now))) now,
              fold_left store_valued valued cache)
    else Ret (mkOrderBook (merged_offers clients) kept
                (directory_nodes (fold_left collect clients (new_orderbook now))) now,
              cache).
Proof.
  cbn zeta. unfold aggregator.get_live_orderbook.
  destruct (collect_fold clients (new_orderbook now)) as (Hb & Ho & Ht).
  rewrite Hb. cbn [fidelity_bonds new_orderbook app].
  rewrite (keep_first_fold (merged_bonds clients) [] []); [|done | done].
  cbn [fmap list_fmap app].
  destruct calculate_bonds.
  - rewrite calculate_bond_values_eq. unfold set_fidelity_bonds, set_offers. simpl.
    rewrite Ho, Ht. reflexivity.
  - unfold set_fidelity_bonds. rewrite Ho, Ht. reflexivity.
Qed.

(** C1.  [get_live_orderbook] returns an order book whose bonds carry each
    (txid, vout) pair at most once.  They are the first-seen bonds of the
    clients' caches, in order: with [calculate_bonds] off exactly those
    bonds, with it on those bonds after the cache and the valuation wrote
    their value fields; a dropped duplicate contributes nothing.  A bond is
    kept exactly when no
    earlier bond has its pair, and every pair of the input is still
    present. *)
Theorem get_live_orderbook_first_seen_wins (clients : list (string * listener))
    (cache : gmap string FidelityBond) (calculate_bonds : bool) (now : Z) :
  exists ob cache',
    get_live_orderbook clients cache calculate_bonds now = Ret (ob, cache')
    /\ NoDup (map utxo_ref (fidelity_bonds ob))
    /\ map bond_identity (fidelity_bonds ob)
         = map bond_identity (first_seen [] (merged_bonds clients))
    /\ fidelity_bonds ob =
         (if calculate_bonds
          then imap (fun i bond =>
                       _calculate_bond_value_single calculate_timelocked_fidelity_bond_value
                         bond now (tx_lookup i (utxo_txid bond)))
                    (map (load_cached cache) (first_seen [] (merged_bonds clients)))
          else first_seen [] (merged_bonds clients))
    /\ (forall b, b ∈ first_seen [] (merged_bonds clients) <->
          exists i : nat,
            merged_bonds clients !! i = Some b
            /\ forall (j : nat) b0, (j < i)%nat -> merged_bonds clients !! j = Some b0 ->
                 utxo_ref b0 <> utxo_ref b)
    /\ (forall b, b ∈ merged_bonds clients ->
          exists b', b' ∈ fidelity_bonds ob /\ utxo_ref b' = utxo_ref b).
Proof.
  pose proof (get_live_orderbook_unfold clients cache calculate_bonds now) as Hrun.
  cbn zeta in Hrun.
  set (kept := first_seen [] (merged_bonds clients)) in *.
  assert (Hfirst : forall b, b ∈ kept <->
            exists i : nat,
              merged_bonds clients !! i = Some b
              /\ forall (j : nat) b0, (j < i)%nat -> merged_bonds clients !! j = Some b0 ->
                   utxo_ref b0 <> utxo_ref b).
  { intros b. unfold kept. rewrite first_seen_first. split.
    - by intros [_ ?].
    - intros ?. split; [by intros ?%elem_of_nil | done]. }
  assert (Hcover : forall bonds, map bond_identity bonds = map bond_identity kept ->
            forall b, b ∈ merged_bonds clients ->
              exists b', b' ∈ bonds /\ utxo_ref b' = utxo_ref b).
  { intros bonds Hid b Hb.
    destruct (first_seen_covers [] _ b Hb) as (b1 & Hb1 & Href1); [by intros ?%elem_of_nil|].
    destruct (map_eq_elem bond_identity bonds kept b1 Hid Hb1) as (b' & Hb' & Hid').
    exists b'. split; [done|]. rewrite <- Href1.
    change (ref_of_identity (bond_identity b') = ref_of_identity (bond_identity b1)).
    by rewrite Hid'. }
  destruct calculate_bonds; eexists; eexists; (split; [exact Hrun|]);
    cbn [fidelity_bonds].
  - assert (Hid := imap_identity calculate_timelocked_fidelity_bond_value tx_lookup now
                     (map (load_cached cache) kept)).
    rewrite map_map in Hid.
    rewrite (map_ext _ bond_identity (load_cached_identity cache)) in Hid.
    split; [|split; [exact Hid | split; [reflexivity | split; [exact Hfirst | by apply Hcover]]]].
    rewrite utxo_ref_of_identity, Hid, <- utxo_ref_of_identity.
    apply first_seen_NoDup.
  - split; [apply first_seen_NoDup|].
    split; [reflexivity|]. split; [reflexivity|]. split; [exact Hfirst | by apply Hcover].
Qed.

End Dedup.

(** ** Attaching bond values to offers *)

Section Attach.

Import models mempool_api aggregator.

Variable calculate_timelocked_fidelity_bond_value : Z -> Z -> Z -> Z -> outcome Z.
Variable tx_lookup : nat -> string -> outcome Transaction.

Local Abbreviation get_live_orderbook :=
  (get_live_orderbook calculate_timelocked_fidelity_bond_value tx_lookup).

Lemma matches_spec (offer : Offer) (data : gmap string pyvalue) (b : FidelityBond) :
  matches offer data b = true <->
  counterparty b = offer_counterparty offer
  /\ dict_get data "utxo_txid" = PyStr (utxo_txid b).
Proof.
  unfold matches. rewrite andb_true_iff, bool_decide_eq_true.
  destruct (dict_get data "utxo_txid") as [t | n |]; simpl.
  - rewrite bool_decide_eq_true. split; intros [? Ht]; (split; [done|]); congruence.
  - split; intros [? ?]; done.
  - split; intros [? ?]; done.
Qed.

(** The head of a filtered list is the first element that passes. *)
Lemma filter_head {A : Type} (p : A -> bool) (l : list A) :
  match List.filter p l with
  | [] => forall x, x ∈ l -> p x = false
  | b :: _ =>
      exists k : nat, l !! k = Some b /\ p b = true
        /\ forall (j : nat) x, (j < k)%nat -> l !! j = Some x -> p x = false
  end.
Proof.
  induction l as [|a l IH]; simpl.
  - by intros x ?%elem_of_nil.
  - destruct (p a) eqn:Ha.
    + exists 0%nat. repeat split; [done|]. intros j x Hj. lia.
    + destruct (List.filter p l) as [|b rest].
      * intros x [-> | ?]%elem_of_cons; [done | by apply IH].
      * destruct IH as (k & Hk & Hb & Hbefore).
        exists (S k). repeat split; [done..|].
        intros [|j] x Hj Hx; simpl in Hx; [by injection Hx as <-|].
        apply (Hbefore j); [lia | done].
Qed.

Lemma first_match_unique {A : Type} (p : A -> bool) (l : list A) (k k' : nat) (b b' : A) :
  l !! k = Some b -> p b = true ->
  (forall (j : nat) x, (j < k)%nat -> l !! j = Some x -> p x = false) ->
  l !! k' = Some b' -> p b' = true ->
  (forall (j : nat) x, (j < k')%nat -> l !! j = Some x -> p x = false) ->
  b = b'.
Proof.
  intros Hk Hb Hbefore Hk' Hb' Hbefore'.
  destruct (Nat.lt_trichotomy k k') as [Hlt | [-> | Hgt]].
  - rewrite (Hbefore' k b Hlt Hk) in Hb. done.
  - congruence.
  - rewrite (Hbefore k' b' Hgt Hk') in Hb'. done.
Qed.

(** What [attach_value] does to one offer. *)
Lemma attach_value_spec (bonds : list FidelityBond) (offer : Offer) :
  (forall data (k : nat) b,
     fidelity_bond_data offer = Some data -> data <> ∅ ->
     bonds !! k = Some b -> matches offer data b = true ->
     (forall (j : nat) b0, (j < k)%nat -> bonds !! j = Some b0 -> matches offer data b0 = false) ->
     attach_value bonds offer =
       match bond_value b with
       | Some v => set_offer_value v offer
       | None => offer
       end)
  /\ (fidelity_bond_data offer = None \/ fidelity_bond_data offer = Some ∅
      \/ (exists data, fidelity_bond_data offer = Some data
                       /\ forall b, b ∈ bonds -> matches offer data b = false) ->
      attach_value bonds offer = offer).
Proof.
  unfold attach_value. split.
  - intros data k b Hdata Hne Hk Hb Hbefore. rewrite Hdata.
    rewrite bool_decide_eq_false_2 by done. cbn zeta.
    pose proof (filter_head (matches offer data) bonds) as Hhead.
    destruct (List.filter (matches offer data) bonds) as [|b' rest].
    + rewrite Hhead in Hb; [done|]. by eapply list_elem_of_lookup_2.
    + destruct Hhead as (k' & Hk' & Hb' & Hbefore').
      by rewrite (first_match_unique _ _ _ _ _ _ Hk Hb Hbefore Hk' Hb' Hbefore').
  - intros [-> | [-> | (data & -> & Hnone)]]; [done | done |].
    case_bool_decide; [done|]. cbn zeta.
    pose proof (filter_head (matches offer data) bonds) as Hhead.
    destruct (List.filter (matches offer data) bonds) as [|b' rest]; [done|].
    destruct Hhead as (k' & Hk' & Hb' & _).
    rewrite Hnone in Hb'; [done|]. by eapply list_elem_of_lookup_2.
Qed.

(** C9 (as the code has it).  With [calculate_bonds] on, [get_live_orderbook]
    gives every offer with non-empty bond data the value of the first bond of
    the deduplicated list that has the offer's counterparty and whose
    transaction id is the one the offer's bond data names, when that bond has
    a value; the output index is not compared.  So an offer that refers to
    the UTXO of a valued bond with its counterparty gets that bond's value
    whenever no earlier bond shares counterparty and transaction id.  An offer
    without bond data, or whose counterparty or transaction id no bond has,
    or whose first matching bond has no value, is left as it was. *)
Theorem get_live_orderbook_offer_values (clients : list (string * listener))
    (cache : gmap string FidelityBond) (now : Z) :
  exists ob cache',
    get_live_orderbook clients cache true now = Ret (ob, cache')
    /\ length (offers ob) = length (merged_offers clients)
    /\ forall (i : nat) offer,
         merged_offers clients !! i = Some offer ->
         exists offer',
           offers ob !! i = Some offer'
           /\ (forall data (k : nat) b,
                 fidelity_bond_data offer = Some data -> data <> ∅ ->
                 fidelity_bonds ob !! k = Some b ->
                 counterparty b = offer_counterparty offer ->
                 dict_get data "utxo_txid" = PyStr (utxo_txid b) ->
                 (forall (j : nat) b0, (j < k)%nat -> fidelity_bonds ob !! j = Some b0 ->
                    counterparty b0 <> offer_counterparty offer
                    \/ dict_get data "utxo_txid" <> PyStr (utxo_txid b0)) ->
                 offer' = match bond_value b with
                          | Some v => set_offer_value v offer
                          | None => offer
                          end)
           /\ (forall (k : nat) b v,
                 fidelity_bonds ob !! k = Some b -> bond_value b = Some v ->
                 references offer b -> counterparty b = offer_counterparty offer ->
                 (forall (j : nat) b0, (j < k)%nat -> fidelity_bonds ob !! j = Some b0 ->
                    counterparty b0 <> counterparty b \/ utxo_txid b0 <> utxo_txid b) ->
                 offer' = set_offer_value v offer)
           /\ (fidelity_bond_data offer = None \/ fidelity_bond_data offer = Some ∅
               \/ (exists data, fidelity_bond_data offer = Some data
                     /\ forall b, b ∈ fidelity_bonds ob ->
                          counterparty b <> offer_counterparty offer
                          \/ dict_get data "utxo_txid" <> PyStr (utxo_txid b)) ->
               offer' = offer).
Proof.
  pose proof (get_live_orderbook_unfold calculate_timelocked_fidelity_bond_value
                tx_lookup clients cache true now) as Hrun.
  cbn zeta in Hrun. cbv iota in Hrun.
  eexists; eexists; split; [exact Hrun|]. cbn [offers fidelity_bonds].
  set (bonds := imap _ _).
  split; [by rewrite length_map|].
  intros i offer Hi. exists (attach_value bonds offer).
  split; [by rewrite list_lookup_fmap, Hi|].
  destruct (attach_value_spec bonds offer) as [Hassign Hkeep].
  assert (Hno : forall data b0, matches offer data b0 = false <->
            counterparty b0 <> offer_counterparty offer
            \/ dict_get data "utxo_txid" <> PyStr (utxo_txid b0)).
  { intros data b0. rewrite <- not_true_iff_false, matches_spec.
    destruct (decide (counterparty b0 = offer_counterparty offer));
      destruct (decide (dict_get data "utxo_txid" = PyStr (utxo_txid b0))); tauto. }
  split; [|split].
  - intros data k b Hdata Hne Hk Hcp Htx Hbefore.
    apply (Hassign data k b); [done.. | by apply matches_spec |].
    intros j b0 Hj Hb0. apply Hno. by apply (Hbefore j).
  - intros k b v Hk Hv (data & Hdata & Htx & Hvout) Hcp Hbefore.
    assert (Hne : data <> ∅).
    { intros ->. unfold dict_get in Htx. by rewrite lookup_empty in Htx. }
    rewrite (Hassign data k b Hdata Hne Hk), Hv; [done | by apply matches_spec |].
    intros j b0 Hj Hb0. apply Hno.
    destruct (Hbefore j b0 Hj Hb0) as [Hc | Ht]; [left; congruence|].
    right. rewrite Htx. congruence.
  - intros [Hnone | [Hempty | (data & Hdata & Hall)]]; apply Hkeep; [by left | by right; left|].
    right; right. exists data. split; [done|].
    intros b Hb. apply Hno. by apply Hall.
Qed.

End Attach.

(** C9 as stated fails.  One maker has bonds on outputs 0 and 1 of the same
    transaction, valued 100 and 200; the maker's offer names output 1, yet it
    is given 100, the value of the bond on output 0. *)
Lemma get_live_orderbook_offer_gets_other_bond_value :
  exists ob cache' b offer',
    aggregator.get_live_orderbook examples.value_is_amount examples.confirmed_lookup
      examples.two_bond_clients ∅ true 1704067200 = Ret (ob, cache')
    /\ aggregator.merged_offers examples.two_bond_clients
         = [models.set_offer_node "node1.onion:5222" examples.offer_for_output_1]
    /\ models.offers ob = [offer']
    /\ models.fidelity_bonds ob !! 1%nat = Some b
    /\ models.bond_value b = Some 200
    /\ models.utxo_vout b = 1
    /\ aggregator.references
         (models.set_offer_node "node1.onion:5222" examples.offer_for_output_1) b
    /\ models.counterparty b = models.offer_counterparty examples.offer_for_output_1
    /\ models.fidelity_bond_value offer' = Some 100.
Proof.
  eexists. eexists. eexists. eexists.
  split; [vm_compute; reflexivity|].
  split; [reflexivity|].
  split; [reflexivity|].
  split; [reflexivity|].
  split; [reflexivity|].
  split; [reflexivity|].
  split; [|split; reflexivity].
  eexists. split; [reflexivity|]. split; vm_compute; reflexivity.
Qed.

(** ** One aggregation cycle *)

Section Update.

Import models mempool_api aggregator.

Variable calculate_timelocked_fidelity_bond_value : Z -> Z -> Z -> Z -> outcome Z.
Variable tx_lookup : nat -> string -> outcome Transaction.

Local Abbreviation update_orderbook :=
  (update_orderbook calculate_timelocked_fidelity_bond_value tx_lookup).

(** What a fetch task hands to [gather]. *)
Lemma fetch_from_directory_cases (onion_address : string) (port : Z) (client : session) :
  match fetched client with
  | Some (offers, bonds) =>
      fetch_from_directory onion_address port client =
        Ret (map (set_offer_node (node_id_of onion_address port)) offers,
             map (set_bond_node (node_id_of onion_address port)) bonds,
             node_id_of onion_address port)
  | None =>
      (exists e, fetch_from_directory onion_address port client = Raise e)
      \/ fetch_from_directory onion_address port client
           = Ret ([], [], node_id_of onion_address port)
  end.
Proof.
  unfold fetched, fetch_from_directory.
  destruct (construct client) as [[]|e]; [|left; by exists e].
  destruct (connect client) as [[]|e], (fetch_orderbooks client) as [[offers bonds]|e'],
    (close client) as [[]|e'']; simpl; eauto.
Qed.

Lemma truthy_false {A : Type} (l : list A) : truthy l = false -> l = [].
Proof. by destruct l. Qed.

Lemma merge_result_fetch (ob : OrderBook) (node : string * Z * session) :
  let '(onion_address, port, client) := node in
  let ob' := merge_result ob (fetch_from_directory onion_address port client) in
  offers ob' = offers ob ++ fetched_offers node
  /\ fidelity_bonds ob' = fidelity_bonds ob ++ fetched_bonds node
  /\ timestamp ob' = timestamp ob
  /\ (fetch_ok node = false -> ob' = ob).
Proof.
  destruct node as [[onion_address port] client]. cbn zeta.
  pose proof (fetch_from_directory_cases onion_address port client) as Hcases.
  unfold fetched_offers, fetched_bonds, fetch_ok.
  destruct (fetched client) as [[offers bonds]|].
  - rewrite Hcases. unfold merge_result.
    destruct (truthy _ || truthy _) eqn:Hdata.
    + cbn. rewrite !map_map. done.
    + apply orb_false_iff in Hdata as [Ho%truthy_false Hb%truthy_false].
      rewrite Ho, Hb, !app_nil_r. done.
  - rewrite !app_nil_r.
    destruct Hcases as [[e ->] | ->]; done.
Qed.

Lemma merge_fold (nodes : list (string * Z * session)) (ob : OrderBook) :
  let fetch := fun '(onion_address, port, client) =>
                 fetch_from_directory onion_address port client in
  let ob' := fold_left merge_result (map fetch nodes) ob in
  offers ob' = offers ob ++ concat (map fetched_offers nodes)
  /\ fidelity_bonds ob' = fidelity_bonds ob ++ concat (map fetched_bonds nodes)
  /\ timestamp ob' = timestamp ob
  /\ fold_left merge_result (map fetch (List.filter fetch_ok nodes)) ob = ob'.
Proof.
  cbn zeta. revert ob. induction nodes as [|node nodes IH]; intros ob.
  - simpl. by rewrite !app_nil_r.
  - cbn [map fold_left concat List.filter].
    pose proof (merge_result_fetch ob node) as Hstep.
    destruct node as [[onion_address port] client]. cbn zeta in Hstep.
    destruct Hstep as (Ho & Hb & Ht & Hfail).
    destruct (IH (merge_result ob (fetch_from_directory onion_address port client)))
      as (Ho' & Hb' & Ht' & Hfilter).
    rewrite Ho', Hb', Ht', Ho, Hb, Ht, <- !app_assoc.
    repeat split; try done.
    destruct (fetch_ok (onion_address, port, client)) eqn:Hok.
    + cbn [map fold_left]. exact Hfilter.
    + rewrite <- Hfilter, (Hfail eq_refl). reflexivity.
Qed.

(** C8.  [update_orderbook] always returns a snapshot, stamped with the
    current time.  Its offers are those of the nodes whose fetch went
    through, tagged and in node order, and its bonds are those nodes' bonds
    (valuation fields aside).  A node whose fetch raised, inside the guarded
    block or outside it, adds nothing: the snapshot is the one computed
    without the failed nodes. *)
Theorem update_orderbook_isolates_failures (directory_nodes : list (string * Z * session))
    (now : Z) :
  exists ob,
    update_orderbook directory_nodes now = Ret ob
    /\ timestamp ob = now
    /\ offers ob = concat (map fetched_offers directory_nodes)
    /\ map bond_identity (fidelity_bonds ob)
         = map bond_identity (concat (map fetched_bonds directory_nodes))
    /\ update_orderbook (List.filter fetch_ok directory_nodes) now = Ret ob
    /\ (forall onion_address port client,
          (onion_address, port, client) ∈ directory_nodes ->
          match fetched client with
          | None =>
              ((exists e, fetch_from_directory onion_address port client = Raise e)
               \/ fetch_from_directory onion_address port client
                    = Ret ([], [], node_id_of onion_address port))
              /\ fetched_offers (onion_address, port, client) = []
              /\ fetched_bonds (onion_address, port, client) = []
          | Some (node_offers, node_bonds) =>
              (forall o, o ∈ node_offers ->
                 set_offer_node (node_id_of onion_address port) o ∈ offers ob)
              /\ (forall b, b ∈ node_bonds ->
                    exists b', b' ∈ fidelity_bonds ob
                      /\ bond_identity b'
                         = bond_identity (set_bond_node (node_id_of onion_address port) b))
          end).
Proof.
  destruct (merge_fold directory_nodes (new_orderbook now)) as (Ho & Hb & Ht & Hfilter).
  cbn zeta in Ho, Hb, Ht, Hfilter. cbn [new_orderbook offers fidelity_bonds app timestamp] in *.
  unfold aggregator.update_orderbook, gather. cbn [mbind outcome_bind Py.bind].
  rewrite Hfilter, !calculate_bond_values_eq. cbn [mbind outcome_bind Py.bind].
  eexists. split; [reflexivity|].
  unfold set_fidelity_bonds. cbn [timestamp offers fidelity_bonds].
  assert (Hid : map bond_identity
             (imap (fun i bond =>
                      _calculate_bond_value_single calculate_timelocked_fidelity_bond_value
                        bond now (tx_lookup i (utxo_txid bond)))
                (fidelity_bonds (fold_left merge_result
                   (map (fun '(onion_address, port, client) =>
                           fetch_from_directory onion_address port client) directory_nodes)
                   (new_orderbook now))))
           = map bond_identity (concat (map fetched_bonds directory_nodes))).
  { by rewrite imap_identity, Hb. }
  split; [exact Ht|]. split; [exact Ho|]. split; [exact Hid|]. split; [reflexivity|].
  intros onion_address port client Hin.
  pose proof (fetch_from_directory_cases onion_address port client) as Hcases.
  destruct (fetched client) as [[node_offers node_bonds]|] eqn:Hfetched.
  - split.
    + intros o Hoin. rewrite Ho. apply list_elem_of_In, in_concat.
      exists (fetched_offers (onion_address, port, client)). split.
      * apply in_map, list_elem_of_In, Hin.
      * unfold fetched_offers. rewrite Hfetched. by apply in_map, list_elem_of_In.
    + intros b Hbin.
      apply (map_eq_elem bond_identity _ _ _ Hid).
      apply list_elem_of_In, in_concat.
      exists (fetched_bonds (onion_address, port, client)). split.
      * apply in_map, list_elem_of_In, Hin.
      * unfold fetched_bonds. rewrite Hfetched. by apply in_map, list_elem_of_In.
  - split; [exact Hcases|].
    unfold fetched_offers, fetched_bonds. by rewrite Hfetched.
Qed.

End Update.

(** ** The code on concrete inputs *)

Section Runs.

Import models mempool_api bond_validator aggregator examples.

(** A transaction mined above the reported tip has zero confirmations. *)
Example confirmations_above_tip :
  get_utxo_confirmations scripted_get api_url "aa11" 0
    [Ret (TxJson two_output_tx); Ret (IntText 609990)]
  = (Ret (Some 0), []).
Proof. reflexivity. Qed.

Example confirmations_counted :
  get_utxo_confirmations scripted_get api_url "aa11" 0
    [Ret (TxJson two_output_tx); Ret (IntText 610005)]
  = (Ret (Some 6), []).
Proof. reflexivity. Qed.

(** A failed transaction request is reported as [None]; a failed tip request
    is not wrapped by [get_block_height] and passes through. *)
Example confirmations_request_failed :
  get_utxo_confirmations scripted_get api_url "aa11" 0 [Raise HTTPError]
  = (Ret None, []).
Proof. reflexivity. Qed.

Example confirmations_tip_request_failed :
  get_utxo_confirmations scripted_get api_url "aa11" 0
    [Ret (TxJson two_output_tx); Raise HTTPError]
  = (Raise HTTPError, []).
Proof. reflexivity. Qed.

Example validate_bond_tip_request_failed :
  validate_bond scripted_get api_url
    (mkFidelityBond "maker" "aa11" 0 100 1893456000 None None None)
    [Ret (TxJson two_output_tx); Raise HTTPError]
  = (Ret false, []).
Proof. reflexivity. Qed.

Example validate_bond_accepts :
  validate_bond scripted_get api_url
    (mkFidelityBond "maker" "aa11" 0 100 1893456000 None None None)
    [Ret (TxJson two_output_tx); Ret (IntText 610005); Ret (TxJson two_output_tx)]
  = (Ret true, []).
Proof. reflexivity. Qed.

Example validate_bond_amount_mismatch :
  validate_bond scripted_get api_url
    (mkFidelityBond "maker" "aa11" 1 100 1893456000 None None None)
    [Ret (TxJson two_output_tx); Ret (IntText 610005); Ret (TxJson two_output_tx)]
  = (Ret false, []).
Proof. reflexivity. Qed.

Example update_orderbook_one_bad_node :
  exists ob,
    update_orderbook value_is_amount confirmed_lookup one_bad_node 1704067200 = Ret ob
    /\ offers ob = [set_offer_node "good.onion:5222" offer_for_output_1]
    /\ fidelity_bonds ob =
         [mkFidelityBond "maker" "aa11" 1 200 1893456000 (Some 200) (Some 1577836800)
            (Some "good.onion:5222")]
    /\ directory_nodes ob = ["good.onion:5222"].
Proof. eexists. repeat split; vm_compute; reflexivity. Qed.

Example push_data_lengths :
  _push_data [] = Ret [0]
  /\ _push_data (replicate 76 7) = Ret ([76; 76] ++ replicate 76 7)
  /\ _push_data (replicate 300 7) = Ret ([77; 44; 1] ++ replicate 300 7).
Proof. repeat split; vm_compute; reflexivity. Qed.

Example fromhex_rejects :
  bytes_fromhex "abc"
  = Raise (ValueError "non-hexadecimal number found in fromhex() arg at position 3")
  /\ bytes_fromhex "0g"
     = Raise (ValueError "non-hexadecimal number found in fromhex() arg at position 1")
  /\ bytes_fromhex "ab CD" = Ret [171; 205].
Proof. repeat split; vm_compute; reflexivity. Qed.

End Runs.

(** * Further properties of the code *)

(** ** Data pushes *)

Lemma le_fixed_is_byte (width : nat) (v : Z) : Forall is_byte (le_fixed width v).
Proof.
  revert v. induction width as [|w IH]; intros v; simpl; constructor; [|apply IH].
  unfold is_byte. rewrite land_255. apply Z.mod_pos_bound. lia.
Qed.

Lemma script_ops_single (pushed : list Z) (op : script_op) :
  next_op pushed = Some (op, []) -> script_ops pushed = Some [op].
Proof.
  intros Hnext. unfold script_ops.
  destruct pushed as [|b rest]; [done|].
  apply script_ops_fuel_mono with (fuel := 1%nat); [|simpl; lia].
  by apply (script_ops_fuel_step 0 (b :: rest) [] op []).
Qed.

(** X1.  What [_push_data] returns is read back by a script interpreter as
    one push of exactly the data, so two different byte strings never give
    the same push. *)
Theorem push_data_round_trip (data pushed : list Z) :
  _push_data data = Ret pushed ->
  script_ops pushed = Some [OpPush data]
  /\ forall data', _push_data data' = Ret pushed -> data' = data.
Proof.
  intros Hpush.
  pose proof (next_op_push_data data pushed [] Hpush) as Hnext.
  rewrite app_nil_r in Hnext. split.
  - by apply script_ops_single.
  - intros data' Hpush'.
    pose proof (next_op_push_data data' pushed [] Hpush') as Hnext'.
    rewrite app_nil_r in Hnext'. congruence.
Qed.

Lemma push_data_round_trip_witness :
  script_ops [3; 1; 2; 3] = Some [OpPush [1; 2; 3]]
  /\ forall data', _push_data data' = Ret [3; 1; 2; 3] -> data' = [1; 2; 3].
Proof. apply (push_data_round_trip [1; 2; 3] [3; 1; 2; 3]). reflexivity. Defined.

(** X2.  [_push_data] succeeds exactly for data of at most [0xFFFFFFFF] bytes
    and raises [struct.error] beyond; the push is the data behind a prefix of
    1, 2, 3 or 5 bytes by length class, and consists of bytes when the data
    does. *)
Theorem push_data_size (data : list Z) :
  (len data <= 4294967295 ->
     exists prefix,
       _push_data data = Ret (prefix ++ data)
       /\ Forall is_byte prefix
       /\ len prefix =
            (if len data <=? 75 then 1
             else if len data <=? 255 then 2
             else if len data <=? 65535 then 3 else 5))
  /\ (4294967295 < len data -> _push_data data = Raise StructError).
Proof.
  pose proof (len_nonneg data) as Hpos.
  destruct (push_data_cases data) as [[H E]|[[H E]|[[H E]|[[H E]|[H E]]]]]; rewrite E;
    (split; [intros Hfit | intros Hbig; try lia]).
  - exists [len data]. split; [done|]. split.
    + repeat constructor; unfold is_byte; lia.
    + destruct (Z.leb_spec (len data) 75); [done | lia].
  - exists [76; len data]. split; [done|]. split.
    + repeat constructor; unfold is_byte; lia.
    + destruct (Z.leb_spec (len data) 75); [lia|].
      destruct (Z.leb_spec (len data) 255); [done | lia].
  - exists (77 :: le_fixed 2 (len data)). split; [done|]. split.
    + constructor; [unfold is_byte; lia | apply le_fixed_is_byte].
    + destruct (Z.leb_spec (len data) 75); [lia|].
      destruct (Z.leb_spec (len data) 255); [lia|].
      destruct (Z.leb_spec (len data) 65535); [done | lia].
  - exists (78 :: le_fixed 4 (len data)). split; [done|]. split.
    + constructor; [unfold is_byte; lia | apply le_fixed_is_byte].
    + destruct (Z.leb_spec (len data) 75); [lia|].
      destruct (Z.leb_spec (len data) 255); [lia|].
      destruct (Z.leb_spec (len data) 65535); [lia | done].
  - lia.
  - reflexivity.
Qed.

(** ** Script numbers *)

Lemma encode_length_le (n : Z) (k : nat) :
  (length (_encode_scriptnum n) <= S k)%nat <-> Z.abs n < 2 ^ (8 * Z.of_nat k + 7).
Proof.
  rewrite encode_scriptnum_spec.
  assert (Hpow : 2 ^ (8 * Z.of_nat k + 7) = 128 * 256 ^ Z.of_nat k).
  { rewrite Z.pow_add_r, Z.pow_mul_r by lia. change (2 ^ 8) with 256. lia. }
  rewrite Hpow.
  assert (0 < 256 ^ Z.of_nat k) by (apply Z.pow_pos_nonneg; lia).
  destruct (Z.eq_dec n 0) as [-> | Hn]; [simpl; split; lia|].
  split.
  - intros Hlen.
    pose proof (scriptnum_spec_is_byte n) as Hb.
    assert (Hne : scriptnum_spec n <> []).
    { intros E. pose proof (scriptnum_spec_decode n) as Hd. rewrite E in Hd.
      simpl in Hd. lia. }
    pose proof (decode_scriptnum_bound _ Hb Hne) as Hup.
    rewrite scriptnum_spec_decode in Hup.
    assert (256 ^ (len (scriptnum_spec n) - 1) <= 256 ^ Z.of_nat k).
    { apply Z.pow_le_mono_r; [lia|]. unfold len. lia. }
    lia.
  - intros Hup.
    enough (len (scriptnum_spec n) <= Z.of_nat k + 1) by (unfold len in *; lia).
    destruct (scriptnum_spec_length n Hn) as [Hlow | ->]; [|lia].
    assert (Hlt : 256 ^ (len (scriptnum_spec n) - 2) < 256 ^ Z.of_nat k) by lia.
    apply Z.pow_lt_mono_r_iff in Hlt; lia.
Qed.

(** X3.  The encoding of [n] is [k + 1] bytes long exactly when [n] is not
    zero and [2^(8k-1) <= |n| < 2^(8k+7)]; for [k = 0] the lower bound is
    empty. *)
Theorem encode_scriptnum_length (n : Z) (k : nat) :
  length (_encode_scriptnum n) = S k <->
  n <> 0 /\ (k = 0%nat \/ 2 ^ (8 * Z.of_nat k - 1) <= Z.abs n)
  /\ Z.abs n < 2 ^ (8 * Z.of_nat k + 7).
Proof.
  pose proof (encode_length_le n k) as Hle.
  destruct k as [|k].
  - split.
    + intros Hlen. split; [|split; [by left | apply Hle; lia]].
      intros ->. done.
    + intros (Hn & _ & Hup). apply Hle in Hup.
      destruct (_encode_scriptnum n) as [|b l] eqn:E; [|simpl in *; lia].
      exfalso. apply Hn.
      pose proof (scriptnum_spec_decode n) as Hd.
      rewrite <- encode_scriptnum_spec, E in Hd. done.
  - pose proof (encode_length_le n k) as Hle'.
    replace (8 * Z.of_nat (S k) - 1) with (8 * Z.of_nat k + 7) by lia.
    split.
    + intros Hlen. split; [intros ->; done|]. split; [right | apply Hle; lia].
      destruct (Z_lt_ge_dec (Z.abs n) (2 ^ (8 * Z.of_nat k + 7))) as [Hlt|]; [|lia].
      apply Hle' in Hlt. lia.
    + intros (_ & [? | Hlow] & Hup); [done|].
      apply Hle in Hup.
      assert (~ (length (_encode_scriptnum n) <= S k)%nat) by (rewrite Hle'; lia).
      lia.
Qed.

(** X4.  [_encode_scriptnum] is injective: the encoding determines the
    integer. *)
Theorem encode_scriptnum_injective (n m : Z) :
  _encode_scriptnum n = _encode_scriptnum m <-> n = m.
Proof.
  split; [|by intros ->].
  intros Heq. rewrite !encode_scriptnum_spec in Heq.
  rewrite <- (scriptnum_spec_decode n), <- (scriptnum_spec_decode m). by rewrite Heq.
Qed.

(** X5.  Negating a positive number changes only the sign bit of its
    encoding: the byte strings have the same length, agree before the last
    byte, and their last bytes differ by [0x80]. *)
Theorem encode_scriptnum_negate (n : Z) :
  0 < n ->
  length (_encode_scriptnum (- n)) = length (_encode_scriptnum n)
  /\ removelast (_encode_scriptnum (- n)) = removelast (_encode_scriptnum n)
  /\ List.last (_encode_scriptnum (- n)) 0 = List.last (_encode_scriptnum n) 0 + 128
  /\ List.last (_encode_scriptnum n) 0 < 128.
Proof.
  intros Hn. rewrite !encode_scriptnum_spec. unfold scriptnum_spec.
  destruct (Z.eqb_spec n 0); [lia|]. destruct (Z.eqb_spec (- n) 0); [lia|].
  destruct (Z.ltb_spec n 0); [lia|]. destruct (Z.ltb_spec (- n) 0); [|lia].
  cbn zeta. rewrite Z.abs_opp.
  set (mag := magnitude_bytes (Z.abs n)).
  pose proof (magnitude_bytes_nonempty (Z.abs n) ltac:(lia)) as Hne. fold mag in Hne.
  unfold top_bit_set. destruct (Z.leb_spec 128 (List.last mag 0)) as [Htop | Htop].
  - rewrite !length_app, !removelast_last, !last_snoc. clearbody mag.
    repeat split; cbn [length]; lia.
  - rewrite removelast_last, last_snoc.
    repeat split; [|lia].
    pose proof (f_equal length (split_last mag Hne)) as Hl.
    rewrite length_app in Hl |- *. clearbody mag. cbn [length] in *. lia.
Qed.

Lemma encode_scriptnum_negate_witness :
  length (_encode_scriptnum (- 1956528000)) = length (_encode_scriptnum 1956528000)
  /\ removelast (_encode_scriptnum (- 1956528000))
     = removelast (_encode_scriptnum 1956528000)
  /\ List.last (_encode_scriptnum (- 1956528000)) 0
     = List.last (_encode_scriptnum 1956528000) 0 + 128
  /\ List.last (_encode_scriptnum 1956528000) 0 < 128.
Proof. apply (encode_scriptnum_negate 1956528000). lia. Defined.

(** ** Redeem scripts and witness programs *)

Lemma mk_freeze_script_inv (pubkey_hex : string) (locktime : Z) (script : list Z) :
  mk_freeze_script pubkey_hex locktime = Ret script ->
  exists pubkey_bytes pushed_locktime,
    bytes_fromhex pubkey_hex = Ret pubkey_bytes
    /\ len pubkey_bytes = 33
    /\ _push_data (_encode_scriptnum locktime) = Ret pushed_locktime
    /\ script = pushed_locktime ++ [177; 117] ++ (33 :: pubkey_bytes) ++ [172].
Proof.
  intros Hrun.
  destruct (bytes_fromhex pubkey_hex) as [pubkey_bytes | e] eqn:Hhex;
    [|unfold mk_freeze_script in Hrun; by rewrite Hhex in Hrun].
  rewrite (mk_freeze_script_unfold _ _ _ Hhex) in Hrun.
  destruct (Z.eqb_spec (len pubkey_bytes) 33) as [Hlen | Hlen]; [|done].
  cbn [negb] in Hrun.
  destruct (_push_data (_encode_scriptnum locktime)) as [pushed_locktime | e] eqn:Hpl; [|done].
  rewrite (push_data_short pubkey_bytes) in Hrun by lia. rewrite Hlen in Hrun.
  exists pubkey_bytes, pushed_locktime.
  repeat split; [done|]. symmetry. by injection Hrun.
Qed.

Lemma freeze_script_ops (locktime_bytes pushed_locktime pubkey_bytes : list Z) :
  _push_data locktime_bytes = Ret pushed_locktime -> len pubkey_bytes = 33 ->
  script_ops (pushed_locktime ++ [177; 117] ++ (33 :: pubkey_bytes) ++ [172])
  = Some [OpPush locktime_bytes; OpCode 177; OpCode 117; OpPush pubkey_bytes; OpCode 172].
Proof.
  intros Hpl Hlen.
  pose proof (push_data_short pubkey_bytes ltac:(lia)) as Hpk. rewrite Hlen in Hpk.
  unfold script_ops.
  apply script_ops_fuel_mono with (fuel := 5%nat).
  - eapply script_ops_fuel_step;
      [destruct pushed_locktime; done | by apply next_op_push_data|].
    eapply script_ops_fuel_step; [done | apply next_op_plain; lia|].
    eapply script_ops_fuel_step; [done | apply next_op_plain; lia|].
    eapply script_ops_fuel_step; [done | |].
    { apply (next_op_push_data pubkey_bytes (33 :: pubkey_bytes) [172]). exact Hpk. }
    reflexivity.
  - rewrite length_app. simpl. rewrite length_app. simpl. unfold len in Hlen. lia.
Qed.

(** X6.  A redeem script determines its lock time and its key: two calls of
    [mk_freeze_script] that return the same script were given the same
    locktime and keys that decode to the same bytes. *)
Theorem mk_freeze_script_injective (hex1 hex2 : string) (locktime1 locktime2 : Z)
    (script : list Z) :
  mk_freeze_script hex1 locktime1 = Ret script ->
  mk_freeze_script hex2 locktime2 = Ret script ->
  locktime1 = locktime2 /\ bytes_fromhex hex1 = bytes_fromhex hex2.
Proof.
  intros (key1 & pl1 & Hhex1 & Hlen1 & Hpl1 & ->)%mk_freeze_script_inv
         (key2 & pl2 & Hhex2 & Hlen2 & Hpl2 & Heq)%mk_freeze_script_inv.
  pose proof (freeze_script_ops _ _ _ Hpl1 Hlen1) as Hops1.
  pose proof (freeze_script_ops _ _ _ Hpl2 Hlen2) as Hops2.
  rewrite <- Heq, Hops1 in Hops2. injection Hops2 as Henc Hkey.
  split; [by apply encode_scriptnum_injective | congruence].
Qed.

Lemma mk_freeze_script_injective_witness :
  1956528000 = 1956528000
  /\ bytes_fromhex test_pubkey_hex
     = bytes_fromhex "02A1B2C3D4E5F6A7B8C9D0E1F2A3B4C5D6E7F8A9B0C1D2E3F4A5B6C7D8E9F0A1B2".
Proof.
  refine (mk_freeze_script_injective test_pubkey_hex
            "02A1B2C3D4E5F6A7B8C9D0E1F2A3B4C5D6E7F8A9B0C1D2E3F4A5B6C7D8E9F0A1B2"
            1956528000 1956528000
            ([4; 128; 63; 158; 116; 177; 117; 33] ++ test_pubkey_bytes ++ [172]) _ _);
    vm_compute; reflexivity.
Defined.

(** X7.  For a 33-byte key and a lock time from [2^23] up to [2^31 - 1] (any
    date from April 1970 to January 2038) the lock time takes four bytes and
    the redeem script is exactly 42 bytes long. *)
Theorem mk_freeze_script_timestamp_length
    (pubkey_hex : string) (pubkey_bytes : list Z) (locktime : Z) :
  bytes_fromhex pubkey_hex = Ret pubkey_bytes ->
  len pubkey_bytes = 33 ->
  8388608 <= locktime < 2147483648 ->
  exists script,
    mk_freeze_script pubkey_hex locktime = Ret script
    /\ length (_encode_scriptnum locktime) = 4%nat
    /\ length script = 42%nat.
Proof.
  intros Hhex Hlen Hrange.
  assert (Henc : length (_encode_scriptnum locktime) = 4%nat).
  { assert (Hle : (length (_encode_scriptnum locktime) <= 4)%nat).
    { apply (encode_length_le locktime 3). simpl. lia. }
    assert (Hgt : ~ (length (_encode_scriptnum locktime) <= 3)%nat).
    { rewrite (encode_length_le locktime 2). simpl. lia. }
    lia. }
  assert (Hpl : _push_data (_encode_scriptnum locktime)
                = Ret (4 :: _encode_scriptnum locktime)).
  { rewrite push_data_short; unfold len; rewrite Henc; [done | lia]. }
  pose proof (push_data_short pubkey_bytes ltac:(lia)) as Hpk. rewrite Hlen in Hpk.
  eexists. split; [|split; [exact Henc|]].
  - rewrite (mk_freeze_script_unfold _ _ _ Hhex), Hlen, Hpl, Hpk. reflexivity.
  - repeat first [rewrite length_app | progress cbn [app length]]. rewrite Henc.
    unfold len in Hlen. lia.
Qed.

Lemma mk_freeze_script_timestamp_length_witness :
  exists script,
    mk_freeze_script test_pubkey_hex 1956528000 = Ret script
    /\ length (_encode_scriptnum 1956528000) = 4%nat
    /\ length script = 42%nat.
Proof.
  apply (mk_freeze_script_timestamp_length test_pubkey_hex test_pubkey_bytes 1956528000).
  - vm_compute. reflexivity.
  - reflexivity.
  - lia.
Defined.

(** X8.  With a 32-byte digest, [redeem_script_to_p2wsh_script] returns the
    34 bytes [0x00 0x20 <digest>], which a script interpreter reads as an
    empty push (the version) followed by a push of the digest. *)
Theorem redeem_script_to_p2wsh_script_shape (sha256 : list Z -> list Z)
    (redeem_script : list Z) :
  len (sha256 redeem_script) = 32 ->
  redeem_script_to_p2wsh_script sha256 redeem_script
    = Ret ([0; 32] ++ sha256 redeem_script)
  /\ length ([0; 32] ++ sha256 redeem_script) = 34%nat
  /\ script_ops ([0; 32] ++ sha256 redeem_script)
     = Some [OpPush []; OpPush (sha256 redeem_script)].
Proof.
  intros Hlen.
  pose proof (push_data_short (sha256 redeem_script) ltac:(lia)) as Hpush.
  rewrite Hlen in Hpush.
  split; [|split].
  - unfold redeem_script_to_p2wsh_script. cbn zeta. rewrite Hpush. reflexivity.
  - cbn [app length]. unfold len in Hlen. lia.
  - unfold script_ops.
    apply script_ops_fuel_mono with (fuel := 2%nat).
    + eapply (script_ops_fuel_step 1 _ (32 :: sha256 redeem_script) (OpPush []));
        [done | reflexivity|].
      eapply script_ops_fuel_step; [done | |].
      { pose proof (next_op_push_data _ _ [] Hpush) as Hnext.
        rewrite app_nil_r in Hnext. exact Hnext. }
      reflexivity.
    + cbn [app length]. lia.
Qed.

Lemma redeem_script_to_p2wsh_script_shape_witness :
  redeem_script_to_p2wsh_script examples.zero_digest [81]
    = Ret ([0; 32] ++ examples.zero_digest [81])
  /\ length ([0; 32] ++ examples.zero_digest [81]) = 34%nat
  /\ script_ops ([0; 32] ++ examples.zero_digest [81])
     = Some [OpPush []; OpPush (examples.zero_digest [81])].
Proof.
  apply (redeem_script_to_p2wsh_script_shape examples.zero_digest [81]). reflexivity.
Defined.

(** ** More on the mempool client *)

Section ClientMore.

Import mempool_api.

Context {World : Type}.
Variable client_get : string -> World -> outcome body * World.
Variable base_url : string.

Local Abbreviation get_transaction := (get_transaction client_get base_url).
Local Abbreviation get_block_height := (get_block_height client_get base_url).
Local Abbreviation get_utxo_value := (get_utxo_value client_get base_url).
Local Abbreviation test_connection := (test_connection client_get base_url).

Lemma get_transaction_unfold (txid : string) (w : World) :
  get_transaction txid w =
    match client_get (base_url +:+ "/" +:+ "tx/" +:+ txid) w with
    | (Ret response, w1) =>
        (data ← response_json response; Transaction_of data, w1)
    | (Raise e, w1) => (if is_HTTPError e then Raise MempoolAPIError else Raise e, w1)
    end.
Proof.
  unfold mempool_api.get_transaction, mempool_api._get, try_except, io_bind, io_lift,
    io_raise.
  destruct (client_get _ w) as [[response | e] w1].
  - by destruct response.
  - by destruct (is_HTTPError e).
Qed.

(** X9.  [get_transaction] makes exactly one request, to
    [<base_url>/tx/<txid>].  An [httpx.HTTPError] from it never gets out as
    such: it is raised again as [MempoolAPIError].  A body that is a
    transaction is returned; a body that is not (no JSON, or JSON of another
    shape) raises something other than [MempoolAPIError]. *)
Theorem get_transaction_wraps_http_errors (txid : string) (w : World) :
  let request := client_get (base_url +:+ "/" +:+ "tx/" +:+ txid) w in
  snd (get_transaction txid w) = snd request
  /\ fst (get_transaction txid w) <> Raise HTTPError
  /\ (fst request = Raise HTTPError -> fst (get_transaction txid w) = Raise MempoolAPIError)
  /\ (forall tx, fst request = Ret (TxJson tx) -> fst (get_transaction txid w) = Ret tx)
  /\ (forall response,
        fst request = Ret response -> (forall tx, response <> TxJson tx) ->
        exists e, fst (get_transaction txid w) = Raise e /\ is_MempoolAPIError e = false).
Proof.
  cbn zeta. rewrite get_transaction_unfold.
  destruct (client_get _ w) as [[response | e] w1]; cbn [fst snd].
  - split; [done|]. split; [by destruct response|]. split; [done|]. split.
    + by intros tx [= ->].
    + intros response' [= <-] Hnot. destruct response; simpl; eauto.
      by destruct (Hnot tx).
  - split; [done|]. split; [by destruct e|]. split; [by intros [= ->]|]. split; done.
Qed.

(** X10.  Once the transaction is fetched, [get_utxo_value] answers by
    position as Python indexing does: [None] for an index at or past the
    number of outputs, the value of that output for an index in range, the
    value of the output counted from the end for a negative index down to
    [-len], and [IndexError] below that. *)
Theorem get_utxo_value_by_index (txid : string) (vout_index : Z) (w w1 : World)
    (tx : Transaction) :
  mempool_api.get_transaction client_get base_url txid w = (Ret tx, w1) ->
  (len (vout tx) <= vout_index -> get_utxo_value txid vout_index w = (Ret None, w1))
  /\ (0 <= vout_index < len (vout tx) ->
        exists output, vout tx !! Z.to_nat vout_index = Some output
          /\ get_utxo_value txid vout_index w = (Ret (Some (value output)), w1))
  /\ (- len (vout tx) <= vout_index < 0 ->
        exists output, vout tx !! Z.to_nat (len (vout tx) + vout_index) = Some output
          /\ get_utxo_value txid vout_index w = (Ret (Some (value output)), w1))
  /\ (vout_index < - len (vout tx) ->
        get_utxo_value txid vout_index w = (Raise IndexError, w1)).
Proof.
  intros Htx. rewrite get_utxo_value_unfold, Htx. unfold getitem.
  split; [|split; [|split]].
  - intros H. by destruct (Z.leb_spec (len (vout tx)) vout_index); [|lia].
  - intros H. destruct (Z.leb_spec (len (vout tx)) vout_index); [lia|].
    destruct (Z.ltb_spec vout_index 0); [lia|].
    destruct (Z.ltb_spec vout_index 0); [lia|].
    destruct (vout tx !! Z.to_nat vout_index) as [output|] eqn:E; [eauto|].
    apply lookup_ge_None in E. unfold len in H. lia.
  - intros H. destruct (Z.leb_spec (len (vout tx)) vout_index); [lia|].
    destruct (Z.ltb_spec vout_index 0); [|lia].
    destruct (Z.ltb_spec (len (vout tx) + vout_index) 0); [lia|].
    destruct (vout tx !! Z.to_nat (len (vout tx) + vout_index)) as [output|] eqn:E; [eauto|].
    apply lookup_ge_None in E. unfold len in *. lia.
  - intros H. pose proof (len_nonneg (vout tx)).
    destruct (Z.leb_spec (len (vout tx)) vout_index); [lia|].
    destruct (Z.ltb_spec vout_index 0); [|lia].
    by destruct (Z.ltb_spec (len (vout tx) + vout_index) 0); [|lia].
Qed.

(** X11.  [test_connection] never raises.  It makes the request that
    [get_block_height] makes and returns [True] exactly when
    [get_block_height] would have returned a height. *)
Theorem test_connection_total (w : World) :
  exists b : bool,
    fst (test_connection w) = Ret b
    /\ (b = true <-> exists height, fst (get_block_height w) = Ret height)
    /\ snd (test_connection w) = snd (get_block_height w).
Proof.
  unfold mempool_api.test_connection, mempool_api.get_block_height, try_except, io_bind,
    io_lift, io_ret.
  destruct (client_get _ w) as [[response | e] w1]; cbn [fst snd].
  - destruct (response_int response) as [height | e]; cbn [fst snd].
    + exists true. split; [done|]. split; [|done]. split; eauto.
    + exists false. split; [done|]. split; [|done]. split; [done | by intros [? ?]].
  - exists false. split; [done|]. split; [|done]. split; [done | by intros [? ?]].
Qed.

End ClientMore.

Lemma get_utxo_value_by_index_witness :
  let w := [Ret (mempool_api.TxJson examples.two_output_tx)] in
  let tx := examples.two_output_tx in
  let get := mempool_api.get_utxo_value examples.scripted_get examples.api_url "aa11" in
  (len (mempool_api.vout tx) <= -1 -> get (-1) w = (Ret None, []))
  /\ (0 <= -1 < len (mempool_api.vout tx) ->
        exists output, mempool_api.vout tx !! Z.to_nat (-1) = Some output
          /\ get (-1) w = (Ret (Some (mempool_api.value output)), []))
  /\ (- len (mempool_api.vout tx) <= -1 < 0 ->
        exists output,
          mempool_api.vout tx !! Z.to_nat (len (mempool_api.vout tx) + -1) = Some output
          /\ get (-1) w = (Ret (Some (mempool_api.value output)), []))
  /\ (-1 < - len (mempool_api.vout tx) -> get (-1) w = (Raise IndexError, [])).
Proof.
  exact (get_utxo_value_by_index examples.scripted_get examples.api_url "aa11" (-1)
           [Ret (mempool_api.TxJson examples.two_output_tx)] []
           examples.two_output_tx eq_refl).
Defined.

(** ** Validating a batch of bonds *)

Section Batch.

Import models mempool_api bond_validator.

Context {World : Type}.
Variable client_get : string -> World -> outcome body * World.
Variable base_url : string.

Local Abbreviation validate_bond := (validate_bond client_get base_url).
Local Abbreviation validate_bonds := (validate_bonds client_get base_url).

Lemma keep_valid_fold (bonds : list FidelityBond)
    (result_of : nat -> FidelityBond -> outcome bool) (acc : list FidelityBond) :
  exists kept,
    fold_left keep_valid (zip bonds (imap result_of bonds)) acc = acc ++ kept
    /\ sublist kept bonds
    /\ forall b, b ∈ kept <->
         exists i : nat, bonds !! i = Some b /\ result_of i b = Ret true.
Proof.
  revert result_of acc. induction bonds as [|b0 bonds IH]; intros result_of acc.
  - exists []. simpl. rewrite app_nil_r. split; [done|]. split; [done|].
    intros b. split; [by intros ?%elem_of_nil | by intros (i & ? & _)].
  - cbn [imap zip zip_with fold_left].
    destruct (IH (result_of ∘ S) (keep_valid acc (b0, result_of 0%nat b0)))
      as (kept & Hfold & Hsub & Hin).
    unfold compose in Hin.
    assert (Hshift : forall b,
              (exists i : nat, (b0 :: bonds) !! i = Some b /\ result_of i b = Ret true)
              <-> (b = b0 /\ result_of 0%nat b0 = Ret true) \/ b ∈ kept).
    { intros b. rewrite Hin. split.
      - intros ([|i] & Hi & Hr); simpl in Hi.
        + injection Hi as <-. by left.
        + right. by exists i.
      - intros [[-> Hr] | (i & Hi & Hr)]; [by exists 0%nat | by exists (S i)]. }
    rewrite Hfold. unfold keep_valid at 1.
    destruct (result_of 0%nat b0) as [[|] | e] eqn:Hr0.
    + exists (b0 :: kept). rewrite <- app_assoc. split; [done|].
      split; [by apply sublist_skip|].
      intros b. rewrite Hshift, elem_of_cons. split; [|tauto].
      intros [-> | ?]; [by left | by right].
    + exists kept. split; [done|]. split; [by apply sublist_cons|].
      intros b. rewrite Hshift. split; [tauto|]. by intros [[_ ?] | ?].
    + exists kept. split; [done|]. split; [by apply sublist_cons|].
      intros b. rewrite Hshift. split; [tauto|]. by intros [[_ ?] | ?].
Qed.

(** X12.  [validate_bonds] returns the bonds whose own validation returned
    [True], in the order they were given and nothing else: the result is a
    sub-list of the input, and a bond is in it exactly when it stands at a
    position whose validation passed. *)
Theorem validate_bonds_keeps_passing (bonds : list FidelityBond) (worlds : nat -> World) :
  exists valid_bonds,
    validate_bonds bonds worlds = Ret valid_bonds
    /\ sublist valid_bonds bonds
    /\ (length valid_bonds <= length bonds)%nat
    /\ forall b, b ∈ valid_bonds <->
         exists i : nat, bonds !! i = Some b
                         /\ fst (validate_bond b (worlds i)) = Ret true.
Proof.
  unfold bond_validator.validate_bonds. cbn zeta.
  destruct (keep_valid_fold bonds (fun i bond => fst (validate_bond bond (worlds i))) [])
    as (kept & Hfold & Hsub & Hin).
  exists kept. rewrite Hfold. split; [done|]. split; [done|].
  split; [by apply sublist_length | done].
Qed.

End Batch.

(** ** Node identifiers and single fetches *)

Section Fetch.

Import models mempool_api aggregator.

(** X13.  Node identifiers are injective: two configured nodes have the same
    identifier only when address and port are the same, whatever characters
    the address holds. *)
Theorem node_id_of_injective (address1 address2 : string) (port1 port2 : Z) :
  node_id_of address1 port1 = node_id_of address2 port2
  <-> address1 = address2 /\ port1 = port2.
Proof.
  split; [|by intros [-> ->]].
  unfold node_id_of. intros Heq.
  change (address1 +:+ String ":" (pretty port1)
          = address2 +:+ String ":" (pretty port2)) in Heq.
  apply colon_split_inj in Heq as [-> Hp]; [|apply pretty_Z_no_colon..].
  by apply (inj pretty) in Hp as ->.
Qed.

(** X14.  [fetch_from_directory] lets an exception out only when constructing
    or closing the client raised; a failure of [connect()] or
    [fetch_orderbooks()] is turned into an empty result.  Whatever it returns
    carries the node's own identifier, on the triple and on every offer and
    bond. *)
Theorem fetch_from_directory_outcome (onion_address : string) (port : Z) (client : session) :
  match fetch_from_directory onion_address port client with
  | Ret (offers, bonds, node_id) =>
      node_id = node_id_of onion_address port
      /\ Forall (fun o => offer_directory_node o = Some node_id) offers
      /\ Forall (fun b => directory_node b = Some node_id) bonds
      /\ ((exists e, connect client = Raise e) \/ (exists e, fetch_orderbooks client = Raise e)
          -> offers = [] /\ bonds = [])
  | Raise e =>
      construct client = Raise e
      \/ (exists u, construct client = Ret u) /\ close client = Raise e
  end.
Proof.
  unfold fetch_from_directory.
  destruct (construct client) as [[]|e]; [|by left]. cbn [mbind outcome_bind Py.bind].
  destruct (close client) as [[]|e]; [|right; eauto]. cbn [mbind outcome_bind Py.bind].
  destruct (connect client) as [[]|e]; cbn [mbind outcome_bind Py.bind].
  - destruct (fetch_orderbooks client) as [[offers bonds]|e].
    + split; [done|]. split; [by apply Forall_map, Forall_true|].
      split; [by apply Forall_map, Forall_true|].
      by intros [[e ?] | [e ?]].
    + repeat split; constructor.
  - repeat split; constructor.
Qed.

End Fetch.

(** ** Valuation and the value cache *)

Section Cache.

Import models mempool_api aggregator.

Variable calculate_timelocked_fidelity_bond_value : Z -> Z -> Z -> Z -> outcome Z.
Variable tx_lookup : nat -> string -> outcome Transaction.

Local Abbreviation single :=
  (_calculate_bond_value_single calculate_timelocked_fidelity_bond_value).
Local Abbreviation get_live_orderbook :=
  (get_live_orderbook calculate_timelocked_fidelity_bond_value tx_lookup).
Local Abbreviation background_step :=
  (_background_bond_calculator_step calculate_timelocked_fidelity_bond_value tx_lookup).

(** X15.  [_calculate_bond_value_single] never touches a bond that has a
    value, so valuing again what was valued changes nothing, whatever the
    second lookup yields.  A bond gets a value only from a confirmed
    transaction that has the output: its amount becomes that output's value
    and its confirmation time the block time, or the current time when the
    block time is missing or zero. *)
Theorem calculate_bond_value_single_stable (bond : FidelityBond) (current_time : Z)
    (reply : outcome Transaction) :
  (bond_value bond <> None -> single bond current_time reply = bond)
  /\ (forall later reply',
        bond_value (single bond current_time reply) <> None ->
        single (single bond current_time reply) later reply'
        = single bond current_time reply)
  /\ (bond_value bond = None ->
      bond_value (single bond current_time reply) <> None ->
      exists tx utxo,
        reply = Ret tx
        /\ confirmed (status tx) = true
        /\ utxo_vout bond < len (vout tx)
        /\ getitem (vout tx) (utxo_vout bond) = Ret utxo
        /\ amount (single bond current_time reply) = value utxo
        /\ utxo_confirmation_timestamp (single bond current_time reply)
           = Some (or_else (block_time (status tx)) current_time)
        /\ Ret (default 0 (bond_value (single bond current_time reply)))
           = calculate_timelocked_fidelity_bond_value (value utxo)
               (or_else (block_time (status tx)) current_time)
               (models.locktime bond) current_time).
Proof.
  assert (Hvalued : forall b t r, bond_value b <> None -> single b t r = b).
  { intros b t r Hv. unfold aggregator._calculate_bond_value_single.
    by destruct (bond_value b). }
  split; [apply Hvalued|]. split; [intros later reply'; apply Hvalued|].
  intros Hnone. unfold aggregator._calculate_bond_value_single. rewrite Hnone.
  destruct reply as [tx | e]; cbn [mbind outcome_bind Py.bind];
    [|by rewrite Hnone].
  destruct (confirmed (status tx)) eqn:Hconf; cbn [negb]; [|by rewrite Hnone].
  destruct (Z.leb_spec (len (vout tx)) (utxo_vout bond)); [by rewrite Hnone|].
  destruct (getitem (vout tx) (utxo_vout bond)) as [utxo | e] eqn:Hget;
    cbn [mbind outcome_bind Py.bind]; [|by rewrite Hnone].
  destruct (calculate_timelocked_fidelity_bond_value _ _ _ _) as [v | e] eqn:Hcalc;
    cbn [mbind outcome_bind Py.bind]; [|by rewrite Hnone].
  intros _.
  exists tx, utxo. repeat split; done.
Qed.

Lemma cache_key_of_identity (bonds : list FidelityBond) :
  map cache_key bonds = map key_of_identity (map bond_identity bonds).
Proof. rewrite map_map. reflexivity. Qed.

Lemma NoDup_cache_keys (bonds : list FidelityBond) :
  NoDup (map utxo_ref bonds) -> NoDup (map cache_key bonds).
Proof.
  induction bonds as [|b bonds IH]; cbn [map]; [constructor|].
  intros [Hnin Hnd]%NoDup_cons. constructor; [|by apply IH].
  intros (b' & Hk & Hin)%list_elem_of_fmap. apply Hnin.
  apply list_elem_of_fmap. exists b'. split; [by apply cache_key_inj | done].
Qed.

Lemma store_valued_other (bonds : list FidelityBond) (cache : gmap string FidelityBond)
    (k : string) :
  (forall b, b ∈ bonds -> bond_value b <> None -> cache_key b <> k) ->
  fold_left store_valued bonds cache !! k = cache !! k.
Proof.
  revert cache. induction bonds as [|b bonds IH]; intros cache Hother; [done|].
  cbn [fold_left]. rewrite IH.
  - unfold store_valued. destruct (bond_value b) eqn:Hv; [|done].
    apply lookup_insert_ne, Hother; [by left | by rewrite Hv].
  - intros b' Hb'. apply Hother. by right.
Qed.

Lemma store_valued_found (bonds : list FidelityBond) (cache : gmap string FidelityBond)
    (b : FidelityBond) :
  NoDup (map cache_key bonds) -> b ∈ bonds -> bond_value b <> None ->
  fold_left store_valued bonds cache !! cache_key b = Some b.
Proof.
  revert cache. induction bonds as [|b0 bonds IH]; intros cache Hnd Hin Hv.
  - by apply elem_of_nil in Hin.
  - cbn [map] in Hnd. apply NoDup_cons in Hnd as [Hnin Hnd]. cbn [fold_left].
    apply elem_of_cons in Hin as [-> | Hin]; [|by apply IH].
    rewrite store_valued_other.
    + unfold store_valued. destruct (bond_value b0); [|done]. apply lookup_insert_eq.
    + intros b' Hb' _ Heq. apply Hnin. rewrite <- Heq. by apply list_elem_of_fmap_2.
Qed.

Lemma live_bonds_identity (cache : gmap string FidelityBond) (now : Z)
    (kept : list FidelityBond) :
  map bond_identity
      (imap (fun i bond => single bond now (tx_lookup i (utxo_txid bond)))
            (map (load_cached cache) kept))
  = map bond_identity kept.
Proof.
  rewrite imap_identity, map_map.
  apply map_ext, load_cached_identity.
Qed.

(** X16.  With [calculate_bonds] on, the cache that [get_live_orderbook]
    leaves behind holds every valued bond of the returned order book under
    its own key, and agrees with the cache it was given on every other key.
    With [calculate_bonds] off the cache is returned as it was. *)
Theorem get_live_orderbook_cache (clients : list (string * listener))
    (cache : gmap string FidelityBond) (now : Z) :
  (exists ob cache',
     get_live_orderbook clients cache true now = Ret (ob, cache')
     /\ (forall b, b ∈ fidelity_bonds ob -> bond_value b <> None ->
           cache' !! cache_key b = Some b)
     /\ (forall k,
           (forall b, b ∈ fidelity_bonds ob -> bond_value b <> None -> cache_key b <> k) ->
           cache' !! k = cache !! k))
  /\ (exists ob, get_live_orderbook clients cache false now = Ret (ob, cache)).
Proof.
  split.
  - pose proof (get_live_orderbook_unfold calculate_timelocked_fidelity_bond_value
                  tx_lookup clients cache true now) as Hrun.
    cbn zeta in Hrun. cbv iota in Hrun.
    eexists; eexists; split; [exact Hrun|]. cbn [fidelity_bonds].
    split.
    + intros b Hb Hv. apply store_valued_found; [|done..].
      rewrite cache_key_of_identity, live_bonds_identity, <- cache_key_of_identity.
      apply NoDup_cache_keys, first_seen_NoDup.
    + intros k Hother. by apply store_valued_other.
  - pose proof (get_live_orderbook_unfold calculate_timelocked_fidelity_bond_value
                  tx_lookup clients cache false now) as Hrun.
    cbn zeta in Hrun. cbv iota in Hrun. eauto.
Qed.

(** X17.  A bond whose key is in the cache with a value is served from the
    cache: it comes back with the cached value, amount and confirmation time,
    and no lookup or value computation has any influence on it. *)
Theorem get_live_orderbook_cache_hit (clients : list (string * listener))
    (cache : gmap string FidelityBond) (now : Z) :
  exists ob cache',
    get_live_orderbook clients cache true now = Ret (ob, cache')
    /\ forall (i : nat) b cached_bond,
         first_seen [] (merged_bonds clients) !! i = Some b ->
         cache !! cache_key b = Some cached_bond ->
         bond_value cached_bond <> None ->
         fidelity_bonds ob !! i =
           Some (set_bond_valuation (bond_value cached_bond) (amount cached_bond)
                   (utxo_confirmation_timestamp cached_bond) b).
Proof.
  pose proof (get_live_orderbook_unfold calculate_timelocked_fidelity_bond_value
                tx_lookup clients cache true now) as Hrun.
  cbn zeta in Hrun. cbv iota in Hrun.
  eexists; eexists; split; [exact Hrun|]. cbn [fidelity_bonds].
  intros i b cached_bond Hi Hcache Hv.
  rewrite list_lookup_imap, list_lookup_fmap, Hi. cbn [fmap option_fmap option_map].
  f_equal. unfold load_cached. rewrite Hcache.
  unfold aggregator._calculate_bond_value_single. cbn [bond_value set_bond_valuation].
  by destruct (bond_value cached_bond).
Qed.


(** X19.  With an empty cache, [get_live_orderbook] with [calculate_bonds] on
    returns what one turn of the background calculator makes of the order
    book returned with [calculate_bonds] off. *)
Theorem get_live_orderbook_is_background_step (clients : list (string * listener))
    (now : Z) :
  exists merged ob cache',
    get_live_orderbook clients ∅ false now = Ret (merged, ∅)
    /\ background_step merged now = Ret ob
    /\ get_live_orderbook clients ∅ true now = Ret (ob, cache').
Proof.
  pose proof (get_live_orderbook_unfold calculate_timelocked_fidelity_bond_value
                tx_lookup clients ∅ false now) as Hoff.
  pose proof (get_live_orderbook_unfold calculate_timelocked_fidelity_bond_value
                tx_lookup clients ∅ true now) as Hon.
  cbn zeta in Hoff, Hon. cbv iota in Hoff, Hon.
  eexists; eexists; eexists. split; [exact Hoff|]. split; [|exact Hon].
  unfold aggregator._background_bond_calculator_step.
  rewrite calculate_bond_values_eq. cbn.
  assert (Hid : map (load_cached ∅) (first_seen [] (merged_bonds clients))
                = first_seen [] (merged_bonds clients)).
  { rewrite <- (map_id (first_seen [] (merged_bonds clients))) at 2.
    apply map_ext. intros b. unfold load_cached. by rewrite lookup_empty. }
  rewrite Hid. reflexivity.
Qed.

End Cache.
